(** * orbe-prices-backend: the in-memory price cache of [server.js]

    A shallow embedding of the refresh-and-serve cache: the two price
    adapters ([fetchCoinGeckoPrices], [fetchOrbePrice]), the refresher
    ([updatePriceCache]) and the two read routes ([GET /api/prices],
    [GET /api/prices/:token]).

    Conventions.
    - A JS number is a binary64 float ([PrimFloat.float]); comparisons and
      subtraction are the IEEE ones, as in JS.
    - A JS object used as a dictionary is an association list in insertion
      order with unique keys, which is what [Object.keys] enumerates for
      keys that are not array indices (the only keys this program writes).
    - Strings are byte strings; [toUpperCase] is the ASCII restriction of
      [String.prototype.toUpperCase].
    - [console.log/warn/error] produce no value and touch no program state;
      they are left out.
    - An [async] function is cut at its [await]: each synchronous segment is
      one atomic computation on the world, and the event loop interleaves
      segments. *)

From Stdlib Require Import ZArith List String Ascii Bool Floats Lia.
Import ListNotations.
Local Open Scope string_scope.
Local Open Scope list_scope.

(* ================================================================== *)
(** ** The part of the JS runtime the program uses *)
(* ================================================================== *)

Module JS.

(** *** Numbers *)

Definition number : Type := float.

(** [ToBoolean] of a number: [+0], [-0] and [NaN] are falsy. *)
Definition truthy_number (x : number) : bool :=
  negb (PrimFloat.eqb x 0%float || PrimFloat.is_nan x).

(** [x > 0] on numbers ([NaN > 0] is false). *)
Definition gt (x y : number) : bool := PrimFloat.ltb y x.

(** The values a cache field or a response field of this program holds. *)
Inductive value : Type :=
| VUndefined
| VNull
| VNum (x : number).

(** [ToBoolean]. *)
Definition truthy (v : value) : bool :=
  match v with
  | VUndefined | VNull => false
  | VNum x => truthy_number x
  end.

(** [ToNumber]: [undefined] is [NaN], [null] is [+0]. *)
Definition ToNumber (v : value) : number :=
  match v with
  | VUndefined => PrimFloat.nan
  | VNull => 0%float
  | VNum x => x
  end.

(** The binary [-] operator: both operands through [ToNumber]. *)
Definition sub (a b : value) : value :=
  VNum (PrimFloat.sub (ToNumber a) (ToNumber b)).

(** *** Strings *)

Definition is_lower (c : ascii) : bool :=
  let n := nat_of_ascii c in (97 <=? n)%nat && (n <=? 122)%nat.

Definition upper_ascii (c : ascii) : ascii :=
  if is_lower c then ascii_of_nat (nat_of_ascii c - 32) else c.

(** [String.prototype.toUpperCase] on ASCII letters; every other byte is
    kept. *)
Fixpoint toUpperCase (s : string) : string :=
  match s with
  | EmptyString => EmptyString
  | String c s' => String (upper_ascii c) (toUpperCase s')
  end.

Fixpoint has_lower (s : string) : bool :=
  match s with
  | EmptyString => false
  | String c s' => is_lower c || has_lower s'
  end.

(** *** [parseFloat]

    Leading white space is skipped, then the longest prefix that is a
    [StrDecimalLiteral] is read: an optional sign, then [Infinity] or
    digits with an optional fraction and an optional exponent. No such
    prefix gives [NaN]. The decimal is rounded to the nearest binary64,
    ties to even. *)

Definition is_space (c : ascii) : bool :=
  let n := nat_of_ascii c in
  ((9 <=? n)%nat && (n <=? 13)%nat) || (n =? 32)%nat.

Fixpoint skip_spaces (s : string) : string :=
  match s with
  | String c s' => if is_space c then skip_spaces s' else s
  | EmptyString => s
  end.

Definition digit_of (c : ascii) : option Z :=
  let n := nat_of_ascii c in
  if (48 <=? n)%nat && (n <=? 57)%nat then Some (Z.of_nat (n - 48)) else None.

(** Reads a run of digits: the accumulated value, how many were read, and
    the rest of the string. *)
Fixpoint read_digits (s : string) (acc : Z) (count : Z) : Z * Z * string :=
  match s with
  | String c s' =>
      match digit_of c with
      | Some d => read_digits s' (acc * 10 + d) (count + 1)
      | None => (acc, count, s)
      end
  | EmptyString => (acc, count, s)
  end.

(** [e] or [E], an optional sign and at least one digit; anything else is
    no exponent at all. *)
Definition read_exponent (s : string) : Z :=
  match s with
  | String c s' =>
      if (nat_of_ascii c =? 101)%nat || (nat_of_ascii c =? 69)%nat then
        let '(neg, s'') :=
          match s' with
          | String "-" t => (true, t)
          | String "+" t => (false, t)
          | _ => (false, s')
          end in
        let '(e, n, _) := read_digits s'' 0 0 in
        if (n =? 0)%Z then 0%Z else if neg then (- e)%Z else e
      else 0%Z
  | EmptyString => 0%Z
  end.

(** [m * 10^e] with [0 < m], rounded once. For a negative exponent the
    quotient is taken with at least 64 bits and a sticky last bit, so the
    rounding to 53 bits sees whether the remainder was zero. *)
Definition round_decimal (neg : bool) (m e : Z) : number :=
  let sgn (x : Z) := if neg then (- x)%Z else x in
  if (0 <=? e)%Z then
    SF2Prim (binary_normalize prec emax (sgn (m * 10 ^ e)%Z) 0 neg)
  else
    let d := (10 ^ (- e))%Z in
    let k := (Z.log2 d + 64)%Z in
    let n := (m * 2 ^ k)%Z in
    let q := (n / d)%Z in
    let sticky := if (n mod d =? 0)%Z then 0%Z else 1%Z in
    SF2Prim (binary_normalize prec emax (sgn (2 * q + sticky)%Z) (- k - 1) neg).

Definition decimal_value (neg : bool) (m e : Z) : number :=
  if (m =? 0)%Z then (if neg then PrimFloat.neg_zero else 0%float)
  else round_decimal neg m e.

Definition parseFloat (input : string) : number :=
  let s := skip_spaces input in
  let '(neg, s1) :=
    match s with
    | String "-" t => (true, t)
    | String "+" t => (false, t)
    | _ => (false, s)
    end in
  if prefix "Infinity" s1 then
    (if neg then PrimFloat.neg_infinity else PrimFloat.infinity)
  else
    let '(ip, ni, s2) := read_digits s1 0 0 in
    let '(m, nf, s3) :=
      match s2 with
      | String "." t => read_digits t ip 0
      | _ => (ip, 0%Z, s2)
      end in
    if ((ni + nf) =? 0)%Z then PrimFloat.nan
    else decimal_value neg m (read_exponent s3 - nf).

End JS.

(* ================================================================== *)
(** ** JS objects used as dictionaries *)
(* ================================================================== *)

Module Obj.

Section Dict.
Context {A : Type}.

Definition t : Type := list (string * A).

(** Own-property lookup. *)
Fixpoint get (k : string) (o : t) : option A :=
  match o with
  | [] => None
  | (k', v) :: o' => if String.eqb k' k then Some v else get k o'
  end.

(** [o[k] = v]: an existing key keeps its place, a new one goes last. *)
Fixpoint set (k : string) (v : A) (o : t) : t :=
  match o with
  | [] => [(k, v)]
  | (k', v') :: o' =>
      if String.eqb k' k then (k', v) :: o' else (k', v') :: set k v o'
  end.

(** [Object.assign(target, source)]: the source's own properties are
    written into the target in the source's order. *)
Definition assign (target source : t) : t :=
  fold_left (fun acc kv => set (fst kv) (snd kv) acc) source target.

(** [Object.keys(o)]. *)
Definition keys (o : t) : list string := map fst o.

(** An association list that stands for a JS object: no key twice. *)
Definition wf (o : t) : Prop := NoDup (keys o).
End Dict.

Arguments t : clear implicits.

(** The names every plain object inherits from [Object.prototype]; a read
    [o[k]] of one of them that is not an own property finds the inherited
    member instead of [undefined]. *)
Definition prototype_keys : list string :=
  [ "constructor"; "__defineGetter__"; "__defineSetter__"; "hasOwnProperty";
    "__lookupGetter__"; "__lookupSetter__"; "isPrototypeOf";
    "propertyIsEnumerable"; "toString"; "valueOf"; "__proto__";
    "toLocaleString" ].

(** What a property read [o[k]] finds. *)
Inductive property (A : Type) : Type :=
| Own (v : A)
| Inherited (name : string)
| Missing.
Arguments Own {A} v.
Arguments Inherited {A} name.
Arguments Missing {A}.

Definition read {A : Type} (o : t A) (k : string) : property A :=
  match get k o with
  | Some v => Own v
  | None =>
      if existsb (String.eqb k) prototype_keys then Inherited k else Missing
  end.

(** [ToBoolean] of what was read: an object or a function is truthy,
    [undefined] is not. *)
Definition found {A : Type} (p : property A) : bool :=
  match p with
  | Missing => false
  | _ => true
  end.

End Obj.

(* ================================================================== *)
(** ** Data model *)
(* ================================================================== *)

Record PriceRecord : Type := mkPriceRecord {
  price : JS.number;
  change24h : JS.number;
  source : string;
  updatedAt : JS.number
}.

Definition Snapshot : Type := Obj.t PriceRecord.

(** [let priceCache = { data: {}, lastUpdate: null, isUpdating: false }] *)
Record PriceCache : Type := mkPriceCache {
  data : Snapshot;
  lastUpdate : JS.value;
  isUpdating : bool
}.

Definition priceCache0 : PriceCache :=
  {| data := []; lastUpdate := JS.VNull; isUpdating := false |}.

Definition CACHE_DURATION : Z := 30000.
Definition STABLECOINS : list string := ["USDT"; "USDC"; "BUSD"; "DAI"].
Definition STANDARD_TOKENS : list string := ["BTC"; "ETH"; "BNB"; "SOL"].

Definition COINGECKO_IDS : Obj.t string :=
  [ ("BTC", "bitcoin"); ("ETH", "ethereum");
    ("BNB", "binancecoin"); ("SOL", "solana") ].

(* ================================================================== *)
(** ** Effects: the process state, the clock and exceptions *)
(* ================================================================== *)

(** The process-wide cache and the system clock. The [k]-th call of
    [Date.now()] in the life of the process returns [clock k]. *)
Record World : Type := mkWorld {
  priceCache : PriceCache;
  clock : nat -> JS.number;
  ticks : nat
}.

Definition error : Type := string.

Inductive Result (A : Type) : Type :=
| Ok (a : A)
| Throw (e : error).
Arguments Ok {A} a.
Arguments Throw {A} e.

(** A synchronous piece of JS code: it runs on the world, leaves a world,
    and either returns or throws. A throw keeps the writes made before
    it. *)
Definition M (A : Type) : Type := World -> Result A * World.

Definition ret {A : Type} (a : A) : M A := fun w => (Ok a, w).

Definition bind {A B : Type} (c : M A) (k : A -> M B) : M B :=
  fun w =>
    match c w with
    | (Ok a, w') => k a w'
    | (Throw e, w') => (Throw e, w')
    end.

Definition throw {A : Type} (e : error) : M A := fun w => (Throw e, w).

Declare Scope js_scope.
Delimit Scope js_scope with js.
Notation "x <- c ;; k" := (bind c (fun x => k))
  (at level 61, c at next level, right associativity) : js_scope.
Notation "c ;; k" := (bind c (fun _ => k))
  (at level 61, right associativity) : js_scope.
Local Open Scope js_scope.

(** [try { body } catch (e) { handler e } finally { final }]: the final
    block runs on every path, and a throw of its own replaces the
    outcome. *)
Definition try_catch_finally {A : Type}
    (body : M A) (handler : error -> M A) (final : M unit) : M A :=
  fun w =>
    let '(r1, w1) := body w in
    let '(r2, w2) :=
      match r1 with
      | Ok a => (Ok a, w1)
      | Throw e => handler e w1
      end in
    match final w2 with
    | (Ok _, w3) => (r2, w3)
    | (Throw e, w3) => (Throw e, w3)
    end.

Definition try_catch {A : Type} (body : M A) (handler : error -> M A) : M A :=
  try_catch_finally body handler (ret tt).

Definition exec {A : Type} (c : M A) (w : World) : World := snd (c w).
Definition eval {A : Type} (c : M A) (w : World) : Result A := fst (c w).

(** [Date.now()] *)
Definition Date_now : M JS.number :=
  fun w =>
    (Ok (clock w (ticks w)),
     {| priceCache := priceCache w; clock := clock w; ticks := S (ticks w) |}).

Definition read_cache : M PriceCache := fun w => (Ok (priceCache w), w).

Definition write_cache (f : PriceCache -> PriceCache) : M unit :=
  fun w =>
    (Ok tt,
     {| priceCache := f (priceCache w); clock := clock w; ticks := ticks w |}).

Definition set_data (d : Snapshot) (c : PriceCache) : PriceCache :=
  {| data := d; lastUpdate := lastUpdate c; isUpdating := isUpdating c |}.
Definition set_lastUpdate (v : JS.value) (c : PriceCache) : PriceCache :=
  {| data := data c; lastUpdate := v; isUpdating := isUpdating c |}.
Definition set_isUpdating (b : bool) (c : PriceCache) : PriceCache :=
  {| data := data c; lastUpdate := lastUpdate c; isUpdating := b |}.

(* ================================================================== *)
(** ** What the network hands to an adapter *)
(* ================================================================== *)

(** The outcome of [await fetch(url, { signal: AbortSignal.timeout(4000) })]
    followed by [await response.json()]. *)
Inductive HttpResult (P : Type) : Type :=
| NetworkError (message : string)
    (** [fetch] rejects: no connection, or the 4000 ms timeout aborts it *)
| BadStatus (status : Z)
    (** a response with [!response.ok] *)
| Malformed (message : string)
    (** [response.json()] rejects, or the body is not an object and
        reading a property of it throws *)
| Json (payload : P).
Arguments NetworkError {P} message.
Arguments BadStatus {P} status.
Arguments Malformed {P} message.
Arguments Json {P} payload.

Definition failed {P : Type} (r : HttpResult P) : Prop :=
  match r with
  | Json _ => False
  | _ => True
  end.

(** CoinGecko's [/simple/price] body: for each requested id an object
    with the numbers [usd] and [usd_24h_change]; a field that is missing
    or [null] is [None]. *)
Record CoinGeckoQuote : Type := mkCoinGeckoQuote {
  usd : option JS.number;
  usd_24h_change : option JS.number
}.

Definition CoinGeckoBody : Type := Obj.t CoinGeckoQuote.

(** A JSON scalar as DexScreener sends them: [priceUsd] is a string,
    [priceChange.h24] a number. *)
Inductive scalar : Type :=
| SNum (x : JS.number)
| SStr (s : string).

Record DexPair : Type := mkDexPair {
  priceUsd : option scalar;
  priceChange_h24 : option scalar
    (** [pair.priceChange?.h24]: [None] when [priceChange] or [h24] is
        missing *)
}.

Record DexScreenerBody : Type := mkDexScreenerBody {
  pair : option DexPair
}.

(** [ToBoolean] of a field that may be missing. *)
Definition truthy_scalar (v : option scalar) : bool :=
  match v with
  | None => false
  | Some (SNum x) => JS.truthy_number x
  | Some (SStr s) => negb (String.eqb s "")
  end.

(** [parseFloat(v)]. The argument goes through [ToString] first; for a
    number that prints its shortest round-tripping decimal, so the number
    comes back, [-0] as [+0]. *)
Definition parseFloat_scalar (v : scalar) : JS.number :=
  match v with
  | SStr s => JS.parseFloat s
  | SNum x => if PrimFloat.eqb x 0%float then 0%float else x
  end.

(* ================================================================== *)
(** ** The adapters *)
(* ================================================================== *)

(** The loop of [fetchCoinGeckoPrices] over [Object.entries(COINGECKO_IDS)]. *)
Fixpoint coinGecko_entries (entries : Obj.t string) (body : CoinGeckoBody)
    (prices : Snapshot) : M Snapshot :=
  match entries with
  | [] => ret prices
  | (symbol, id) :: rest =>
      match Obj.get id body with
      | Some quote =>
          match usd quote with
          | Some p =>
              if JS.gt p 0%float then
                now <- Date_now ;;
                coinGecko_entries rest body
                  (Obj.set symbol
                     {| price := p;
                        change24h :=
                          match usd_24h_change quote with
                          | Some c => if JS.truthy_number c then c else 0%float
                          | None => 0%float
                          end;
                        source := "coingecko";
                        updatedAt := now |} prices)
              else coinGecko_entries rest body prices
          | None => coinGecko_entries rest body prices
          end
      | None => coinGecko_entries rest body prices
      end
  end.

Definition fetchCoinGeckoPrices (response : HttpResult CoinGeckoBody)
    : M Snapshot :=
  try_catch
    (match response with
     | NetworkError m => throw m
     | BadStatus _ => ret []
     | Malformed m => throw m
     | Json body => coinGecko_entries COINGECKO_IDS body []
     end)
    (fun _ => ret []).

(** [null] is [None]. *)
Definition fetchOrbePrice (response : HttpResult DexScreenerBody)
    : M (option Snapshot) :=
  try_catch
    (match response with
     | NetworkError m => throw m
     | BadStatus _ => ret None
     | Malformed m => throw m
     | Json body =>
         match pair body with
         | Some p =>
             match priceUsd p with
             | Some raw =>
                 if truthy_scalar (Some raw) then
                   let price := parseFloat_scalar raw in
                   let change24h :=
                     parseFloat_scalar
                       (if truthy_scalar (priceChange_h24 p) then
                          match priceChange_h24 p with
                          | Some h => h
                          | None => SNum 0%float
                          end
                        else SNum 0%float) in
                   now <- Date_now ;;
                   ret (Some [("ORBE",
                               {| price := price;
                                  change24h := change24h;
                                  source := "dexscreener";
                                  updatedAt := now |})])
                 else ret None
             | None => ret None
             end
         | None => ret None
         end
     end)
    (fun _ => ret None).

(* ================================================================== *)
(** ** The refresher: [updatePriceCache] *)
(* ================================================================== *)

(** [STABLECOINS.forEach(token => { newData[token] = {...} })] *)
Fixpoint stablecoin_entries (tokens : list string) (newData : Snapshot)
    : M Snapshot :=
  match tokens with
  | [] => ret newData
  | token :: rest =>
      now <- Date_now ;;
      stablecoin_entries rest
        (Obj.set token
           {| price := 1%float; change24h := 0%float;
              source := "fixed"; updatedAt := now |} newData)
  end.

(** The frame of an [updatePriceCache] call suspended at
    [await Promise.all([...])]: its locals. *)
Record Task : Type := mkTask {
  newData : Snapshot;
  startTime : JS.number
}.

(** How a promise settles. *)
Inductive Settled (A : Type) : Type :=
| Fulfilled (a : A)
| Rejected (e : error).
Arguments Fulfilled {A} a.
Arguments Rejected {A} e.

(** Which of the two adapter calls comes back first. *)
Inductive Arrival : Type := CoinGeckoFirst | DexScreenerFirst.

(** [Promise.all([a, b])]: the values are delivered by position in the
    array, whatever the order of arrival; the first rejection to arrive
    rejects the whole. *)
Definition Promise_all {A B : Type} (first : Arrival)
    (a : Result A) (b : Result B) : Settled (A * B) :=
  match first with
  | CoinGeckoFirst =>
      match a, b with
      | Throw e, _ => Rejected e
      | Ok _, Throw e => Rejected e
      | Ok x, Ok y => Fulfilled (x, y)
      end
  | DexScreenerFirst =>
      match b, a with
      | Throw e, _ => Rejected e
      | Ok _, Throw e => Rejected e
      | Ok y, Ok x => Fulfilled (x, y)
      end
  end.

(** First segment, up to the [await]: the guard, the flag, the fixed
    provider. [None] is the early [return] of the guard. Nothing here can
    throw, so the [try] that the source opens before the logging is placed
    where the second segment starts. *)
Definition updatePriceCache_enter : M (option Task) :=
  cache <- read_cache ;;
  if isUpdating cache then ret None
  else
    write_cache (set_isUpdating true) ;;
    startTime <- Date_now ;;
    newData <- stablecoin_entries STABLECOINS [] ;;
    ret (Some {| newData := newData; startTime := startTime |}).

(** Second segment: the [await] delivers the settled [Promise.all]; then
    the merge, the publication, and the [catch] and [finally] blocks. *)
Definition updatePriceCache_resume (task : Task)
    (settled : Settled (Snapshot * option Snapshot)) : M unit :=
  try_catch_finally
    (match settled with
     | Rejected e => throw e
     | Fulfilled (coinGeckoData, orbeData) =>
         let merged := Obj.assign (newData task) coinGeckoData in
         let merged :=
           match orbeData with
           | Some o => Obj.assign merged o
           | None => merged
           end in
         write_cache (set_data merged) ;;
         now <- Date_now ;;
         write_cache (set_lastUpdate (JS.VNum now)) ;;
         finished <- Date_now ;;
         let duration := PrimFloat.sub finished (startTime task) in
         ret tt
     end)
    (fun _ => ret tt)
    (write_cache (set_isUpdating false)).

(** One refresh cycle's share of the outside world. *)
Record Network : Type := mkNetwork {
  coingecko : HttpResult CoinGeckoBody;
  dexscreener : HttpResult DexScreenerBody;
  arrival : Arrival
}.

(** Runs the two adapters' continuations in their order of arrival. *)
Definition await_adapters (net : Network)
    : M (Settled (Snapshot * option Snapshot)) :=
  fun w =>
    match arrival net with
    | CoinGeckoFirst =>
        let '(a, w1) := fetchCoinGeckoPrices (coingecko net) w in
        let '(b, w2) := fetchOrbePrice (dexscreener net) w1 in
        (Ok (Promise_all CoinGeckoFirst a b), w2)
    | DexScreenerFirst =>
        let '(b, w1) := fetchOrbePrice (dexscreener net) w in
        let '(a, w2) := fetchCoinGeckoPrices (coingecko net) w1 in
        (Ok (Promise_all DexScreenerFirst a b), w2)
    end.

(** A whole call of [updatePriceCache] with no other handler running
    during its [await]. *)
Definition updatePriceCache (net : Network) : M unit :=
  entered <- updatePriceCache_enter ;;
  match entered with
  | None => ret tt
  | Some task =>
      settled <- await_adapters net ;;
      updatePriceCache_resume task settled
  end.

(* ================================================================== *)
(** ** The read routes *)
(* ================================================================== *)

Record PricesMeta : Type := mkPricesMeta {
  meta_lastUpdate : JS.value;
  meta_cacheAge : JS.value;
  meta_tokensCount : nat;
  meta_isUpdating : bool
}.

(** The body of [GET /api/prices]. *)
Record PricesResponse : Type := mkPricesResponse {
  prices_success : bool;
  prices_data : Snapshot;
  prices_meta : PricesMeta
}.

Definition getAll : M PricesResponse :=
  cache <- read_cache ;;
  cacheAge <-
    (if JS.truthy (lastUpdate cache) then
       now <- Date_now ;;
       ret (JS.sub (JS.VNum now) (lastUpdate cache))
     else ret JS.VNull) ;;
  ret {| prices_success := true;
         prices_data := data cache;
         prices_meta :=
           {| meta_lastUpdate := lastUpdate cache;
              meta_cacheAge := cacheAge;
              meta_tokensCount := List.length (Obj.keys (data cache));
              meta_isUpdating := isUpdating cache |} |}.

(** The two bodies of [GET /api/prices/:token], each with its status. *)
Inductive TokenResponse : Type :=
| TokenFound (status : Z) (success : bool) (token : string)
    (found_data : Obj.property PriceRecord)
    (found_lastUpdate : JS.value) (found_cacheAge : JS.value)
| TokenNotFound (status : Z) (success : bool) (error_message : string)
    (availableTokens : list string).

Definition getOne (param : string) : M TokenResponse :=
  let token := JS.toUpperCase param in
  cache <- read_cache ;;
  let price := Obj.read (data cache) token in
  if negb (Obj.found price) then
    ret (TokenNotFound 404 false ("Token " ++ token ++ " not found")
           (Obj.keys (data cache)))
  else
    now <- Date_now ;;
    ret (TokenFound 200 true token price (lastUpdate cache)
           (JS.sub (JS.VNum now) (lastUpdate cache))).

(* ================================================================== *)
(** ** The process: interleaved segments *)
(* ================================================================== *)

(** The world together with the [updatePriceCache] calls that are suspended
    at their [await]. *)
Record System : Type := mkSystem {
  world : World;
  tasks : list Task
}.

Definition boot (clk : nat -> JS.number) : System :=
  {| world := {| priceCache := priceCache0; clock := clk; ticks := 0 |};
     tasks := [] |}.

(** What the event loop can run next. Every segment is atomic. *)
Inductive step : System -> System -> Prop :=
| step_call s :
    (** [updatePriceCache()] is called: at start-up, by the 30 s timer or
        by [POST /api/prices/refresh] *)
    step s
      {| world := exec updatePriceCache_enter (world s);
         tasks :=
           match eval updatePriceCache_enter (world s) with
           | Ok (Some task) => task :: tasks s
           | _ => tasks s
           end |}
| step_settle s before task after settled :
    (** the [Promise.all] of a suspended call settles, in any way *)
    tasks s = before ++ task :: after ->
    step s
      {| world := exec (updatePriceCache_resume task settled) (world s);
         tasks := before ++ after |}
| step_coingecko s response :
    (** the continuation of [fetchCoinGeckoPrices] after its [fetch] *)
    step s
      {| world := exec (fetchCoinGeckoPrices response) (world s);
         tasks := tasks s |}
| step_dexscreener s response :
    step s
      {| world := exec (fetchOrbePrice response) (world s);
         tasks := tasks s |}
| step_getAll s :
    step s {| world := exec getAll (world s); tasks := tasks s |}
| step_getOne s param :
    step s {| world := exec (getOne param) (world s); tasks := tasks s |}
| step_clock s :
    (** [/health] and the answer of the refresh route read the clock *)
    step s {| world := exec Date_now (world s); tasks := tasks s |}.

Inductive reachable : System -> Prop :=
| reachable_boot clk : reachable (boot clk)
| reachable_step s s' : reachable s -> step s s' -> reachable s'.

(** A snapshot has been published only together with its time stamp. *)
Definition stamped (c : PriceCache) : Prop :=
  data c <> [] -> exists t, lastUpdate c = JS.VNum t.

(** The guard's view of the suspended calls. *)
Definition guarded (s : System) : Prop :=
  match tasks s with
  | [] => isUpdating (priceCache (world s)) = false
  | [_] => isUpdating (priceCache (world s)) = true
  | _ => False
  end.

(** What the fixed provider writes for a stablecoin, the time stamp
    apart. *)
Definition is_fixed (r : PriceRecord) : Prop :=
  price r = 1%float /\ change24h r = 0%float /\ source r = "fixed".

(** The cache and the clock are the same; only readings were consumed. *)
Definition same_cache (w w' : World) : Prop :=
  priceCache w' = priceCache w /\ clock w' = clock w.

(* ================================================================== *)
(** ** Sample inputs *)
(* ================================================================== *)

(** A clock that starts at 1 700 000 000 000 ms and gains one millisecond
    per reading. *)
Definition sample_clock (k : nat) : JS.number :=
  PrimFloat.of_uint63 (Uint63.of_Z (1700000000000 + Z.of_nat k)).

Definition sample_world : World :=
  {| priceCache := priceCache0; clock := sample_clock; ticks := 0 |}.

Definition sample_record (p : JS.number) (src : string) : PriceRecord :=
  {| price := p; change24h := 0%float; source := src;
     updatedAt := sample_clock 0 |}.

(** A world in the middle of a refresh that still serves an older
    snapshot with BTC in it. *)
Definition busy_world : World :=
  {| priceCache :=
       {| data := [("USDT", sample_record 1%float "fixed");
                   ("BTC", sample_record 50000%float "coingecko")];
          lastUpdate := JS.VNum (sample_clock 7);
          isUpdating := true |};
     clock := sample_clock;
     ticks := 9 |}.

Definition idle_world : World :=
  {| priceCache := set_isUpdating false (priceCache busy_world);
     clock := sample_clock;
     ticks := 9 |}.


Definition orbe_body (raw : string) : DexScreenerBody :=
  {| pair := Some {| priceUsd := Some (SStr raw);
                     priceChange_h24 := Some (SNum (-1.25)%float) |} |}.

(** A CoinGecko body with a quote for bitcoin and a zero quote for
    ethereum. *)
Definition sample_quotes : CoinGeckoBody :=
  [ ("bitcoin", {| usd := Some 50000%float;
                   usd_24h_change := Some 2.5%float |});
    ("ethereum", {| usd := Some 0%float; usd_24h_change := None |}) ].

Definition offline : Network :=
  {| coingecko := NetworkError "The operation was aborted due to timeout";
     dexscreener := BadStatus 503;
     arrival := DexScreenerFirst |}.

(** The process after its first refresh, made with the network down. *)
Definition refreshed_system : System :=
  {| world := exec (updatePriceCache offline) sample_world; tasks := [] |}.

Definition orbe_only : Network :=
  {| coingecko := NetworkError "The operation was aborted due to timeout";
     dexscreener := Json (orbe_body "0.0012");
     arrival := DexScreenerFirst |}.

Definition both_up : Network :=
  {| coingecko := Json sample_quotes;
     dexscreener := Json (orbe_body "0.0012");
     arrival := CoinGeckoFirst |}.

(* ================================================================== *)
(** ** The remaining routes *)
(* ================================================================== *)

(** The body of [GET /health]. *)
Record HealthResponse : Type := mkHealthResponse {
  health_status : string;
  health_service : string;
  health_uptime : JS.number;
  health_lastUpdate : JS.value;
  health_tokensAvailable : nat;
  health_timestamp : JS.number
}.

(** [uptime] is what [process.uptime()] returns at the request. *)
Definition health (uptime : JS.number) : M HealthResponse :=
  cache <- read_cache ;;
  now <- Date_now ;;
  ret {| health_status := "healthy";
         health_service := "prices-api";
         health_uptime := uptime;
         health_lastUpdate := lastUpdate cache;
         health_tokensAvailable := List.length (Obj.keys (data cache));
         health_timestamp := now |}.

(** The body of [POST /api/prices/refresh]. *)
Record RefreshResponse : Type := mkRefreshResponse {
  refresh_success : bool;
  refresh_message : string;
  refresh_data : Snapshot;
  refresh_timestamp : JS.number
}.

(** The segment of the refresh route that runs once
    [await updatePriceCache()] has returned. *)
Definition refresh_respond : M RefreshResponse :=
  cache <- read_cache ;;
  now <- Date_now ;;
  ret {| refresh_success := true;
         refresh_message := "Cache refreshed";
         refresh_data := data cache;
         refresh_timestamp := now |}.

(** The refresh route with no other handler running in between. *)
Definition forceRefresh (net : Network) : M RefreshResponse :=
  updatePriceCache net ;;
  refresh_respond.

(* ================================================================== *)
(** ** The process with its adapters, its start-up and its timer *)
(* ================================================================== *)

(** A call of [updatePriceCache] in flight: the suspended frame, whether
    it is the call that [startAutoUpdate] awaits, and what the two adapter
    promises have delivered so far. *)
Record Flight : Type := mkFlight {
  from_startup : bool;
  flight_task : Task;
  first_arrival : option Arrival;
  coinGeckoResult : option (Result Snapshot);
  orbeResult : option (Result (option Snapshot))
}.

Definition new_flight (startup : bool) (task : Task) : Flight :=
  {| from_startup := startup; flight_task := task; first_arrival := None;
     coinGeckoResult := None; orbeResult := None |}.

(** When the [Promise.all] of a flight is settled, and how: fulfilled
    once both adapters have delivered, rejected as soon as one of them
    has thrown. *)
Definition settlement (f : Flight)
    : option (Settled (Snapshot * option Snapshot)) :=
  match coinGeckoResult f, orbeResult f with
  | Some a, Some b =>
      match first_arrival f with
      | Some first => Some (Promise_all first a b)
      | None => None
      end
  | Some (Throw e), None => Some (Rejected e)
  | None, Some (Throw e) => Some (Rejected e)
  | _, _ => None
  end.

(** [listening]: the callback of [app.listen] has run, so
    [startAutoUpdate] has made its first call and requests are served.
    [interval_armed]: [startAutoUpdate] has reached its [setInterval]. *)
Record Process : Type := mkProcess {
  proc_world : World;
  flights : list Flight;
  listening : bool;
  interval_armed : bool
}.

Definition launch (clk : nat -> JS.number) : Process :=
  {| proc_world := {| priceCache := priceCache0; clock := clk; ticks := 0 |};
     flights := [];
     listening := false;
     interval_armed := false |}.

(** A call of [updatePriceCache()]: its first segment runs, and the call
    stays in flight unless the guard returned. *)
Definition call_update (startup : bool) (p : Process) : list Flight :=
  match eval updatePriceCache_enter (proc_world p) with
  | Ok (Some task) => new_flight startup task :: flights p
  | _ => flights p
  end.

(** A handler that only runs a computation on the world. *)
Definition serve {A : Type} (c : M A) (p : Process) : Process :=
  {| proc_world := exec c (proc_world p);
     flights := flights p;
     listening := listening p;
     interval_armed := interval_armed p |}.

Inductive proc_step : Process -> Process -> Prop :=
| ps_listen p :
    (** the callback of [app.listen] runs [startAutoUpdate] up to its
        [await updatePriceCache()]; were that call to return at the guard,
        [setInterval] would follow at once *)
    listening p = false ->
    proc_step p
      {| proc_world := exec updatePriceCache_enter (proc_world p);
         flights := call_update true p;
         listening := true;
         interval_armed :=
           match eval updatePriceCache_enter (proc_world p) with
           | Ok (Some _) => interval_armed p
           | _ => true
           end |}
| ps_tick p :
    (** the [setInterval] callback, every [CACHE_DURATION] ms *)
    interval_armed p = true ->
    proc_step p
      {| proc_world := exec updatePriceCache_enter (proc_world p);
         flights := call_update false p;
         listening := listening p;
         interval_armed := interval_armed p |}
| ps_refresh_call p :
    (** [POST /api/prices/refresh] calls [updatePriceCache()] *)
    listening p = true ->
    proc_step p
      {| proc_world := exec updatePriceCache_enter (proc_world p);
         flights := call_update false p;
         listening := listening p;
         interval_armed := interval_armed p |}
| ps_coingecko p before f after response :
    (** the CoinGecko call of a flight comes back *)
    flights p = before ++ f :: after ->
    coinGeckoResult f = None ->
    proc_step p
      {| proc_world := exec (fetchCoinGeckoPrices response) (proc_world p);
         flights :=
           before ++
           {| from_startup := from_startup f;
              flight_task := flight_task f;
              first_arrival :=
                match first_arrival f with
                | None => Some CoinGeckoFirst
                | Some first => Some first
                end;
              coinGeckoResult :=
                Some (eval (fetchCoinGeckoPrices response) (proc_world p));
              orbeResult := orbeResult f |} :: after;
         listening := listening p;
         interval_armed := interval_armed p |}
| ps_dexscreener p before f after response :
    (** the DexScreener call of a flight comes back *)
    flights p = before ++ f :: after ->
    orbeResult f = None ->
    proc_step p
      {| proc_world := exec (fetchOrbePrice response) (proc_world p);
         flights :=
           before ++
           {| from_startup := from_startup f;
              flight_task := flight_task f;
              first_arrival :=
                match first_arrival f with
                | None => Some DexScreenerFirst
                | Some first => Some first
                end;
              coinGeckoResult := coinGeckoResult f;
              orbeResult :=
                Some (eval (fetchOrbePrice response) (proc_world p)) |}
           :: after;
         listening := listening p;
         interval_armed := interval_armed p |}
| ps_resume p before f after settled :
    (** the [await] of a flight returns; the start-up call then lets
        [startAutoUpdate] reach its [setInterval] *)
    flights p = before ++ f :: after ->
    settlement f = Some settled ->
    proc_step p
      {| proc_world :=
           exec (updatePriceCache_resume (flight_task f) settled)
             (proc_world p);
         flights := before ++ after;
         listening := listening p;
         interval_armed := interval_armed p || from_startup f |}
| ps_getAll p :
    listening p = true -> proc_step p (serve getAll p)
| ps_getOne p param :
    listening p = true -> proc_step p (serve (getOne param) p)
| ps_health p uptime :
    listening p = true -> proc_step p (serve (health uptime) p)
| ps_refresh_respond p :
    listening p = true -> proc_step p (serve refresh_respond p).

Inductive running : Process -> Prop :=
| running_launch clk : running (launch clk)
| running_step p p' : running p -> proc_step p p' -> running p'.

(** The process seen without its adapters and its timer. *)
Definition erase (p : Process) : System :=
  {| world := proc_world p; tasks := map flight_task (flights p) |}.

(* ================================================================== *)
(** ** What a published snapshot looks like *)
(* ================================================================== *)

(** Where an entry can come from: the fixed provider, the batch adapter
    or the single-pair adapter. *)
Definition sourced (kv : string * PriceRecord) : Prop :=
  (In (fst kv) STABLECOINS /\ is_fixed (snd kv))
  \/ (In (fst kv) STANDARD_TOKENS
      /\ source (snd kv) = "coingecko"
      /\ JS.gt (price (snd kv)) 0%float = true)
  \/ (fst kv = "ORBE" /\ source (snd kv) = "dexscreener").

Definition good_snapshot (d : Snapshot) : Prop :=
  Obj.wf d
  /\ Forall sourced d
  /\ exists rest, Obj.keys d = STABLECOINS ++ rest.

(** Either nothing was published yet, or a good snapshot with its time
    stamp. *)
Definition cache_ok (c : PriceCache) : Prop :=
  (data c = [] /\ lastUpdate c = JS.VNull)
  \/ (good_snapshot (data c) /\ exists t, lastUpdate c = JS.VNum t).

(** What a flight holds: the fixed entries in its frame, and adapter
    results that are returned, not thrown. *)
Definition flight_ok (f : Flight) : Prop :=
  Obj.keys (newData (flight_task f)) = STABLECOINS
  /\ Forall sourced (newData (flight_task f))
  /\ (forall r, coinGeckoResult f = Some r ->
        exists cg, r = Ok cg /\ Forall sourced cg)
  /\ (forall r, orbeResult f = Some r ->
        exists o, r = Ok o
                  /\ match o with
                     | Some orbe => Forall sourced orbe
                     | None => True
                     end).

(** A record without its time stamp, and a snapshot so. *)
Definition untimed (r : PriceRecord) : JS.number * JS.number * string :=
  (price r, change24h r, source r).

Definition untimed_snapshot (d : Snapshot)
    : list (string * (JS.number * JS.number * string)) :=
  map (fun kv => (fst kv, untimed (snd kv))) d.

(** The record the batch adapter makes of a quote in [body]: the entry's
    symbol maps to an id whose quote has a [usd] that is [> 0]; the price
    is that [usd], the change is [usd_24h_change] or [0] when that is
    missing, zero or [NaN]. *)
Definition quoted (body : CoinGeckoBody) (kv : string * PriceRecord) : Prop :=
  exists id quote p,
    Obj.get (fst kv) COINGECKO_IDS = Some id
    /\ Obj.get id body = Some quote
    /\ usd quote = Some p
    /\ JS.gt p 0%float = true
    /\ price (snd kv) = p
    /\ change24h (snd kv)
       = match usd_24h_change quote with
         | Some c => if JS.truthy_number c then c else 0%float
         | None => 0%float
         end
    /\ source (snd kv) = "coingecko".

(** What holds of the running process at every moment. *)
Definition proc_inv (p : Process) : Prop :=
  cache_ok (priceCache (proc_world p))
  /\ Forall flight_ok (flights p)
  /\ guarded (erase p)
  /\ (listening p = false ->
      flights p = [] /\ interval_armed p = false
      /\ priceCache (proc_world p) = priceCache0)
  /\ (interval_armed p = true ->
      exists t, lastUpdate (priceCache (proc_world p)) = JS.VNum t).

(** The process once its start-up refresh has published, both providers
    having answered, CoinGecko first. *)
Definition sample_process : Process :=
  {| proc_world := exec (updatePriceCache both_up) sample_world;
     flights := [];
     listening := true;
     interval_armed := true |}.

(* ================================================================== *)
(** ** The runtime model on sample inputs *)
(* ================================================================== *)

#[local] Set Warnings "-inexact-float".

(** [parseFloat] agrees with the nearest-binary64 reading of the same
    decimals, stops at the first character that does not belong to the
    literal, and gives [NaN] when no literal starts the string. *)
Example parseFloat_samples :
  JS.parseFloat "0.0012" = 0.0012%float
  /\ JS.parseFloat "  -1.5e3abc" = (-1500)%float
  /\ JS.parseFloat "9007199254740993" = 9007199254740992%float
  /\ JS.parseFloat "1e-400" = 0%float
  /\ JS.parseFloat "abc" = PrimFloat.nan
  /\ JS.parseFloat "" = PrimFloat.nan.
Proof. repeat split; vm_compute; reflexivity. Qed.

#[local] Set Warnings "inexact-float".

Example toUpperCase_samples :
  JS.toUpperCase "btc" = "BTC" /\ JS.toUpperCase "Orbe-2" = "ORBE-2".
Proof. split; reflexivity. Qed.

(* ================================================================== *)
(** ** Dictionaries: lookup after writes *)
(* ================================================================== *)

Section ObjFacts.
Context {A : Type}.
Implicit Types (o target source : Obj.t A) (k : string) (v : A).

Lemma get_set_same k v o : Obj.get k (Obj.set k v o) = Some v.
Proof.
  induction o as [|[k' v'] o IH]; simpl.
  - now rewrite String.eqb_refl.
  - destruct (String.eqb k' k) eqn:E; simpl; rewrite E; auto.
Qed.

Lemma get_set_other k k' v o :
  k' <> k -> Obj.get k (Obj.set k' v o) = Obj.get k o.
Proof.
  intros Hne. induction o as [|[k0 v0] o IH]; simpl.
  - destruct (String.eqb k' k) eqn:E; auto.
    apply String.eqb_eq in E. contradiction.
  - destruct (String.eqb k0 k') eqn:E0; simpl.
    + apply String.eqb_eq in E0. subst k0.
      destruct (String.eqb k' k) eqn:E; [|reflexivity].
      apply String.eqb_eq in E. contradiction.
    + now rewrite IH.
Qed.

Lemma get_None_not_In k o : Obj.get k o = None <-> ~ In k (Obj.keys o).
Proof.
  induction o as [|[k' v'] o IH]; simpl.
  - tauto.
  - destruct (String.eqb k' k) eqn:E.
    + apply String.eqb_eq in E. split; [discriminate | intros H; exfalso; auto].
    + apply String.eqb_neq in E. rewrite IH. tauto.
Qed.

Lemma get_assign_absent k target source :
  ~ In k (Obj.keys source) ->
  Obj.get k (Obj.assign target source) = Obj.get k target.
Proof.
  revert target. induction source as [|[k' v'] source IH]; intros target Hk.
  - reflexivity.
  - simpl in Hk. unfold Obj.assign. simpl.
    fold (Obj.assign (Obj.set k' v' target) source).
    rewrite IH by tauto. apply get_set_other. tauto.
Qed.

(** [Object.assign] lets the source win on every key the source has. *)
Lemma get_assign_present k v target source :
  NoDup (Obj.keys source) ->
  Obj.get k source = Some v ->
  Obj.get k (Obj.assign target source) = Some v.
Proof.
  revert target. induction source as [|[k' v'] source IH]; intros target Hnd Hget.
  - discriminate.
  - simpl in Hnd, Hget. inversion Hnd as [|? ? Hnotin Hnd']; subst.
    unfold Obj.assign. simpl.
    fold (Obj.assign (Obj.set k' v' target) source).
    destruct (String.eqb k' k) eqn:E.
    + apply String.eqb_eq in E. subst k'. injection Hget as ->.
      rewrite get_assign_absent by exact Hnotin. apply get_set_same.
    + now apply IH.
Qed.

Lemma keys_set_absent k v o :
  ~ In k (Obj.keys o) -> Obj.keys (Obj.set k v o) = Obj.keys o ++ [k].
Proof.
  induction o as [|[k' v'] o IH]; simpl; intros Hk.
  - reflexivity.
  - destruct (String.eqb k' k) eqn:E.
    + apply String.eqb_eq in E. exfalso. auto.
    + simpl. rewrite IH by tauto. reflexivity.
Qed.
End ObjFacts.

(* ================================================================== *)
(** ** Upper-casing *)
(* ================================================================== *)


Lemma upper_ascii_not_lower c : JS.is_lower (JS.upper_ascii c) = false.
Proof. destruct c as [[] [] [] [] [] [] [] []]; reflexivity. Qed.


Lemma toUpperCase_no_lower s : JS.has_lower (JS.toUpperCase s) = false.
Proof.
  induction s as [|c s IH]; simpl.
  - reflexivity.
  - now rewrite upper_ascii_not_lower, IH.
Qed.

(** An upper-cased name is never one of the members inherited from
    [Object.prototype]: each of those has a lower-case letter. *)
Lemma toUpperCase_not_inherited s :
  existsb (String.eqb (JS.toUpperCase s)) Obj.prototype_keys = false.
Proof.
  destruct (existsb _ _) eqn:E; [exfalso | reflexivity].
  apply existsb_exists in E. destruct E as [k [Hin Heq]].
  apply String.eqb_eq in Heq.
  assert (Hl : JS.has_lower k = true).
  { unfold Obj.prototype_keys in Hin. simpl in Hin.
    repeat (destruct Hin as [<- | Hin]; [reflexivity |]). contradiction. }
  rewrite <- Heq, toUpperCase_no_lower in Hl. discriminate.
Qed.

Lemma read_upper_own (o : Snapshot) s :
  Obj.read o (JS.toUpperCase s) =
  match Obj.get (JS.toUpperCase s) o with
  | Some r => Obj.Own r
  | None => Obj.Missing
  end.
Proof.
  unfold Obj.read. destruct (Obj.get _ o); [reflexivity |].
  now rewrite toUpperCase_not_inherited.
Qed.

(* ================================================================== *)
(** ** What the adapters leave untouched *)
(* ================================================================== *)

Lemma same_cache_refl w : same_cache w w.
Proof. split; reflexivity. Qed.

(** The computation returns [v] at once, in the world [w] it started in. *)
Ltac returns_at v w :=
  exists v, w; split; [reflexivity | apply same_cache_refl].

Lemma same_cache_trans w1 w2 w3 :
  same_cache w1 w2 -> same_cache w2 w3 -> same_cache w1 w3.
Proof. intros [H1 H2] [H3 H4]. split; congruence. Qed.

Lemma coinGecko_entries_total entries body prices w :
  exists snap w',
    coinGecko_entries entries body prices w = (Ok snap, w') /\ same_cache w w'.
Proof.
  revert prices w. induction entries as [|[symbol id] rest IH]; intros prices w.
  - returns_at prices w.
  - simpl. destruct (Obj.get id body) as [quote|]; [|apply IH].
    destruct (usd quote) as [p|]; [|apply IH].
    destruct (JS.gt p 0%float); [|apply IH].
    unfold bind, Date_now.
    match goal with
    | |- context [coinGecko_entries rest body ?ps ?w1] =>
        destruct (IH ps w1) as (snap & w' & Hrun & Hc1 & Hc2)
    end.
    exists snap, w'. split; [exact Hrun | split; assumption].
Qed.

Lemma fetchCoinGeckoPrices_total response w :
  exists snap w',
    fetchCoinGeckoPrices response w = (Ok snap, w') /\ same_cache w w'.
Proof.
  destruct response as [m|st|m|body]; try returns_at (@nil (string * PriceRecord)) w.
  destruct (coinGecko_entries_total COINGECKO_IDS body [] w)
    as (snap & w' & Hrun & Hc).
  unfold fetchCoinGeckoPrices, try_catch, try_catch_finally.
  rewrite Hrun. exists snap, w'. split; [reflexivity | exact Hc].
Qed.

Lemma fetchOrbePrice_total response w :
  exists res w',
    fetchOrbePrice response w = (Ok res, w') /\ same_cache w w'.
Proof.
  destruct response as [m|st|m|body]; try returns_at (@None Snapshot) w.
  unfold fetchOrbePrice, try_catch, try_catch_finally.
  destruct (pair body) as [p|]; [|returns_at (@None Snapshot) w].
  destruct (priceUsd p) as [raw|]; [|returns_at (@None Snapshot) w].
  destruct (truthy_scalar (Some raw)); [|returns_at (@None Snapshot) w].
  eexists _, _. split; [reflexivity | split; reflexivity].
Qed.

Lemma fetchCoinGeckoPrices_failed response w :
  failed response -> fetchCoinGeckoPrices response w = (Ok [], w).
Proof. destruct response; simpl; intros H; [reflexivity .. | contradiction]. Qed.

Lemma fetchOrbePrice_failed response w :
  failed response -> fetchOrbePrice response w = (Ok None, w).
Proof. destruct response; simpl; intros H; [reflexivity .. | contradiction]. Qed.

(** What the single-pair adapter returns is an object with at most the
    key ORBE. *)
Lemma fetchOrbePrice_wf response w o :
  eval (fetchOrbePrice response) w = Ok (Some o) ->
  Obj.wf o /\ Obj.keys o = ["ORBE"].
Proof.
  unfold eval, fetchOrbePrice, try_catch, try_catch_finally.
  destruct response as [m|st|m|body]; try discriminate.
  destruct (pair body) as [p|]; [|discriminate].
  destruct (priceUsd p) as [raw|]; [|discriminate].
  destruct (truthy_scalar (Some raw)); [|discriminate].
  simpl. intros [= <-]. split; [|reflexivity].
  repeat constructor. simpl. tauto.
Qed.

(** The adapters as written never reject, so the [Promise.all] of a cycle
    is always fulfilled. *)
Lemma await_adapters_fulfilled net w :
  exists coinGeckoData orbeData w',
    await_adapters net w = (Ok (Fulfilled (coinGeckoData, orbeData)), w')
    /\ same_cache w w'.
Proof.
  unfold await_adapters. destruct (arrival net).
  - destruct (fetchCoinGeckoPrices_total (coingecko net) w) as (a & w1 & Ha & Hc1).
    destruct (fetchOrbePrice_total (dexscreener net) w1) as (b & w2 & Hb & Hc2).
    rewrite Ha, Hb. exists a, b, w2. split; [reflexivity |].
    eapply same_cache_trans; eassumption.
  - destruct (fetchOrbePrice_total (dexscreener net) w) as (b & w1 & Hb & Hc1).
    destruct (fetchCoinGeckoPrices_total (coingecko net) w1) as (a & w2 & Ha & Hc2).
    rewrite Hb, Ha. exists a, b, w2. split; [reflexivity |].
    eapply same_cache_trans; eassumption.
Qed.

(* ================================================================== *)
(** ** The segments of [updatePriceCache] *)
(* ================================================================== *)

Lemma enter_skips w :
  isUpdating (priceCache w) = true -> updatePriceCache_enter w = (Ok None, w).
Proof.
  intros H. unfold updatePriceCache_enter, bind, read_cache. now rewrite H.
Qed.

Lemma enter_starts w :
  isUpdating (priceCache w) = false ->
  exists task w',
    updatePriceCache_enter w = (Ok (Some task), w')
    /\ data (priceCache w') = data (priceCache w)
    /\ lastUpdate (priceCache w') = lastUpdate (priceCache w)
    /\ isUpdating (priceCache w') = true
    /\ Obj.keys (newData task) = STABLECOINS
    /\ Forall (fun kv => is_fixed (snd kv)) (newData task).
Proof.
  intros H. destruct w as [[d l u] clk n]. simpl in H. subst u.
  eexists _, _. split; [reflexivity |].
  repeat split; repeat constructor.
Qed.

Lemma enter_frame w :
  data (priceCache (exec updatePriceCache_enter w)) = data (priceCache w)
  /\ lastUpdate (priceCache (exec updatePriceCache_enter w))
     = lastUpdate (priceCache w).
Proof.
  destruct w as [[d l u] clk n]. destruct u; split; reflexivity.
Qed.

Lemma resume_fulfilled task coinGeckoData orbeData w :
  updatePriceCache_resume task (Fulfilled (coinGeckoData, orbeData)) w =
  (Ok tt,
   {| priceCache :=
        {| data :=
             match orbeData with
             | Some o => Obj.assign (Obj.assign (newData task) coinGeckoData) o
             | None => Obj.assign (newData task) coinGeckoData
             end;
           lastUpdate := JS.VNum (clock w (ticks w));
           isUpdating := false |};
      clock := clock w;
      ticks := S (S (ticks w)) |}).
Proof. reflexivity. Qed.

Lemma resume_rejected task e w :
  updatePriceCache_resume task (Rejected e) w =
  (Ok tt,
   {| priceCache := set_isUpdating false (priceCache w);
      clock := clock w;
      ticks := ticks w |}).
Proof. reflexivity. Qed.

(* ================================================================== *)
(** ** The adapters and the positive-price rule *)
(* ================================================================== *)

Lemma coinGecko_entries_positive entries body prices w :
  Forall (fun kv => JS.gt (price (snd kv)) 0%float = true) prices ->
  forall snap, eval (coinGecko_entries entries body prices) w = Ok snap ->
  Forall (fun kv => JS.gt (price (snd kv)) 0%float = true) snap.
Proof.
  revert prices w. induction entries as [|[symbol id] rest IH];
    intros prices w Hpos snap.
  - unfold eval; simpl. intros [= <-]. exact Hpos.
  - simpl. destruct (Obj.get id body) as [quote|]; [|now apply IH].
    destruct (usd quote) as [p|]; [|now apply IH].
    destruct (JS.gt p 0%float) eqn:Hp; [|now apply IH].
    unfold eval, bind, Date_now. apply IH.
    clear IH. induction prices as [|[k r] prices IHp]; simpl.
    + constructor; [exact Hp | constructor].
    + inversion Hpos; subst. destruct (String.eqb k symbol).
      * constructor; [exact Hp | assumption].
      * constructor; [assumption | now apply IHp].
Qed.

(** X1. The batch adapter keeps the positive-price rule: every record it
    returns has a price that is [> 0], so neither [NaN], zero nor
    negative. *)
Theorem fetchCoinGeckoPrices_positive :
  forall (response : HttpResult CoinGeckoBody) (w : World)
         (snap : Snapshot) (k : string) (r : PriceRecord),
    eval (fetchCoinGeckoPrices response) w = Ok snap ->
    Obj.get k snap = Some r ->
    JS.gt (price r) 0%float = true.
Proof.
  intros response w snap k r Hrun Hget.
  assert (Hall : Forall (fun kv => JS.gt (price (snd kv)) 0%float = true) snap).
  { destruct response as [m|st|m|body];
      try (injection Hrun as <-; constructor).
    unfold eval, fetchCoinGeckoPrices, try_catch, try_catch_finally in Hrun.
    destruct (coinGecko_entries_total COINGECKO_IDS body [] w)
      as (snap' & w' & Hrun' & _).
    pose proof (coinGecko_entries_positive COINGECKO_IDS body [] w
                  (Forall_nil _) snap') as Hpos.
    unfold eval in Hpos. rewrite Hrun' in Hrun, Hpos. simpl in Hrun.
    injection Hrun as <-. now apply Hpos. }
  clear Hrun. induction snap as [|[k' r'] snap IH]; [discriminate|].
  inversion Hall; subst. simpl in Hget.
  destruct (String.eqb k' k); [injection Hget as <-; assumption | auto].
Qed.

Lemma fetchCoinGeckoPrices_positive_witness :
  JS.gt 50000%float 0%float = true.
Proof.
  exact (fetchCoinGeckoPrices_positive (Json sample_quotes) sample_world
           [("BTC", {| price := 50000%float; change24h := 2.5%float;
                       source := "coingecko"; updatedAt := sample_clock 0 |})]
           "BTC"
           {| price := 50000%float; change24h := 2.5%float;
              source := "coingecko"; updatedAt := sample_clock 0 |}
           eq_refl eq_refl).
Defined.

(** C1 (not met by the code). The single-pair adapter tests
    the raw [priceUsd] for truthiness only and never the parsed number:
    for the bodies [priceUsd: "0"], [priceUsd: "-1"] and [priceUsd: "abc"]
    it returns an ORBE record whose price is [0], [-1] and [NaN], none of
    which is [> 0]. *)
Theorem fetchOrbePrice_unchecked_price :
  forall w : World,
    let entry raw :=
      eval (fetchOrbePrice
              (Json {| pair := Some {| priceUsd := Some (SStr raw);
                                       priceChange_h24 := None |} |})) w in
    let orbe p :=
      Ok (Some [("ORBE", {| price := p; change24h := 0%float;
                            source := "dexscreener";
                            updatedAt := clock w (ticks w) |})]) in
    entry "0" = orbe 0%float
    /\ entry "-1" = orbe (-1)%float
    /\ entry "abc" = orbe PrimFloat.nan
    /\ JS.gt 0%float 0%float = false
    /\ JS.gt (-1)%float 0%float = false
    /\ JS.gt PrimFloat.nan 0%float = false.
Proof.
  intros w. repeat split; vm_compute; reflexivity.
Qed.

(* ================================================================== *)
(** ** The in-progress guard *)
(* ================================================================== *)

(** C2. With [isUpdating = true] a call of [updatePriceCache] returns at
    the guard: it does not throw and the world after it is the world
    before it, so [data] and [lastUpdate] (and the flag, and the clock
    position) are unchanged. *)
Theorem updatePriceCache_guard_noop :
  forall (net : Network) (w : World),
    isUpdating (priceCache w) = true ->
    updatePriceCache net w = (Ok tt, w)
    /\ data (priceCache (exec (updatePriceCache net) w)) = data (priceCache w)
    /\ lastUpdate (priceCache (exec (updatePriceCache net) w))
       = lastUpdate (priceCache w).
Proof.
  intros net w H.
  assert (Hrun : updatePriceCache net w = (Ok tt, w)).
  { unfold updatePriceCache, bind. now rewrite (enter_skips w H). }
  unfold exec. rewrite Hrun. repeat split.
Qed.

Lemma updatePriceCache_guard_noop_witness :
  isUpdating (priceCache busy_world) = true
  /\ updatePriceCache orbe_only busy_world = (Ok tt, busy_world).
Proof.
  split; [reflexivity |].
  apply (updatePriceCache_guard_noop orbe_only busy_world). reflexivity.
Defined.

(** C3. A call that passed the guard is resumed by [updatePriceCache_resume]
    when its [Promise.all] settles. However it settles, fulfilled with
    any results or rejected with any error, and in whatever world the
    call is resumed, the segment returns normally and leaves
    [isUpdating = false]. *)
Theorem updatePriceCache_resume_clears_isUpdating :
  forall (task : Task) (settled : Settled (Snapshot * option Snapshot))
         (w : World),
    eval (updatePriceCache_resume task settled) w = Ok tt
    /\ isUpdating (priceCache (exec (updatePriceCache_resume task settled) w))
       = false.
Proof.
  intros task [[coinGeckoData orbeData] | e] w; unfold eval, exec.
  - rewrite resume_fulfilled. split; reflexivity.
  - rewrite resume_rejected. split; reflexivity.
Qed.

(** X2. A whole uninterrupted call that passes the guard returns normally
    with [isUpdating = false], whatever the network answers. *)
Theorem updatePriceCache_clears_isUpdating :
  forall (net : Network) (w : World),
    isUpdating (priceCache w) = false ->
    eval (updatePriceCache net) w = Ok tt
    /\ isUpdating (priceCache (exec (updatePriceCache net) w)) = false.
Proof.
  intros net w H. destruct (enter_starts w H) as (task & w1 & Henter & _).
  destruct (await_adapters_fulfilled net w1) as (a & b & w2 & Hawait & _).
  unfold eval, exec, updatePriceCache, bind.
  rewrite Henter, Hawait, resume_fulfilled. split; reflexivity.
Qed.

Lemma updatePriceCache_clears_isUpdating_witness :
  eval (updatePriceCache orbe_only) idle_world = Ok tt
  /\ isUpdating (priceCache (exec (updatePriceCache orbe_only) idle_world))
     = false.
Proof.
  apply (updatePriceCache_clears_isUpdating orbe_only idle_world).
  reflexivity.
Defined.

(* ================================================================== *)
(** ** Merge order *)
(* ================================================================== *)

(** C4. The merge is [Object.assign(newData, coinGeckoData)] and then
    [Object.assign(newData, orbeData)] on the results that [Promise.all]
    delivers by position. Whichever call arrived first, the published
    snapshot is the fixed entries overwritten by the batch result
    overwritten by the single-pair result, and a symbol that both adapters
    report carries the single-pair adapter's record. ([Obj.wf] says that
    the single-pair result is an object: it has no key twice.) *)
Theorem merge_single_pair_wins :
  forall (task : Task) (first : Arrival)
         (coinGeckoData orbeData : Snapshot)
         (symbol : string) (a b : PriceRecord) (w : World),
    Obj.wf orbeData ->
    Obj.get symbol coinGeckoData = Some a ->
    Obj.get symbol orbeData = Some b ->
    let settled := Promise_all first (Ok coinGeckoData) (Ok (Some orbeData)) in
    let published :=
      data (priceCache (exec (updatePriceCache_resume task settled) w)) in
    published
    = Obj.assign (Obj.assign (newData task) coinGeckoData) orbeData
    /\ Obj.get symbol published = Some b.
Proof.
  intros task first cg orbe symbol a b w Hnd Ha Hb settled published.
  assert (Hs : settled = Fulfilled (cg, Some orbe)).
  { unfold settled. destruct first; reflexivity. }
  unfold published, exec. rewrite Hs, resume_fulfilled. simpl.
  split; [reflexivity |]. now apply get_assign_present.
Qed.

Lemma merge_single_pair_wins_witness :
  let cg := [("BTC", sample_record 50000%float "coingecko");
             ("ORBE", sample_record 2%float "coingecko")] in
  let orbe := [("ORBE", sample_record 3%float "dexscreener")] in
  let task := {| newData := [("USDT", sample_record 1%float "fixed")];
                 startTime := sample_clock 0 |} in
  Obj.get "ORBE"
    (data (priceCache
       (exec (updatePriceCache_resume task
                (Promise_all CoinGeckoFirst (Ok cg) (Ok (Some orbe))))
             busy_world)))
  = Some (sample_record 3%float "dexscreener").
Proof.
  intros cg orbe task.
  refine (proj2 (merge_single_pair_wins task CoinGeckoFirst cg orbe "ORBE"
                   (sample_record 2%float "coingecko")
                   (sample_record 3%float "dexscreener") busy_world _ _ _)).
  - repeat constructor. simpl. tauto.
  - reflexivity.
  - reflexivity.
Defined.

(* ================================================================== *)
(** ** Whole refresh cycles *)
(* ================================================================== *)

(** C5. Both network calls fail (a rejected [fetch], a non-OK status or an
    unreadable body, in any combination and any order of arrival). The
    call still returns normally; the published snapshot has exactly the
    keys USDT, USDC, BUSD, DAI, each with price 1, change 0 and source
    [fixed]; [lastUpdate] is the clock reading taken right after the
    publication (the sixth reading of the call); the flag is cleared. *)
Theorem refresh_with_failed_adapters :
  forall (net : Network) (w : World),
    isUpdating (priceCache w) = false ->
    failed (coingecko net) ->
    failed (dexscreener net) ->
    let w' := exec (updatePriceCache net) w in
    eval (updatePriceCache net) w = Ok tt
    /\ Obj.keys (data (priceCache w')) = ["USDT"; "USDC"; "BUSD"; "DAI"]
    /\ Forall (fun kv => is_fixed (snd kv)) (data (priceCache w'))
    /\ lastUpdate (priceCache w') = JS.VNum (clock w (5 + ticks w))
    /\ isUpdating (priceCache w') = false.
Proof.
  intros net w Hidle Hcg Hdex w'.
  assert (Hawait : forall w1, await_adapters net w1
                              = (Ok (Fulfilled ([], None)), w1)).
  { intros w1. unfold await_adapters.
    destruct (arrival net);
      rewrite ?(fetchCoinGeckoPrices_failed _ _ Hcg),
              ?(fetchOrbePrice_failed _ _ Hdex),
              ?(fetchCoinGeckoPrices_failed _ _ Hcg); reflexivity. }
  subst w'. unfold eval, exec, updatePriceCache, bind.
  destruct w as [[d l u] clk n]. simpl in Hidle. subst u.
  unfold updatePriceCache_enter, bind, read_cache. simpl isUpdating. cbv iota.
  unfold write_cache, Date_now, ret. simpl.
  rewrite Hawait, resume_fulfilled. simpl.
  repeat split; repeat constructor.
Qed.

Lemma refresh_with_failed_adapters_witness :
  Obj.keys (data (priceCache (exec (updatePriceCache offline) idle_world)))
  = ["USDT"; "USDC"; "BUSD"; "DAI"]
  /\ lastUpdate (priceCache (exec (updatePriceCache offline) idle_world))
     = JS.VNum (sample_clock 14).
Proof.
  pose proof (refresh_with_failed_adapters offline idle_world
                eq_refl I I) as H.
  split; [exact (proj1 (proj2 H)) | exact (proj1 (proj2 (proj2 (proj2 H))))].
Defined.

(** C6. The batch call fails and the single-pair call brings a body whose
    [priceUsd] is truthy. Whatever the previous snapshot held, the call
    returns normally and the published snapshot has exactly the keys
    USDT, USDC, BUSD, DAI, ORBE; BTC, ETH, BNB and SOL are not in it. *)
Theorem refresh_without_batch_drops_old_symbols :
  forall (net : Network) (w : World) (p : DexPair),
    isUpdating (priceCache w) = false ->
    failed (coingecko net) ->
    dexscreener net = Json {| pair := Some p |} ->
    truthy_scalar (priceUsd p) = true ->
    let w' := exec (updatePriceCache net) w in
    eval (updatePriceCache net) w = Ok tt
    /\ Obj.keys (data (priceCache w')) = ["USDT"; "USDC"; "BUSD"; "DAI"; "ORBE"]
    /\ Forall (fun k => Obj.get k (data (priceCache w')) = None)
         STANDARD_TOKENS.
Proof.
  intros net w p Hidle Hcg Hdex Hraw w'.
  assert (Hawait : forall w1, exists r w2,
             await_adapters net w1
             = (Ok (Fulfilled ([], Some [("ORBE", r)])), w2)).
  { intros w1. unfold await_adapters. rewrite Hdex.
    assert (Horbe : forall w0, exists r w2,
               fetchOrbePrice (Json {| pair := Some p |}) w0
               = (Ok (Some [("ORBE", r)]), w2)).
    { intros w0. unfold fetchOrbePrice, try_catch, try_catch_finally.
      change (pair {| pair := Some p |}) with (Some p). cbv beta iota.
      destruct (priceUsd p) as [raw|] eqn:Hp; [|discriminate].
      rewrite Hraw. eexists _, _. reflexivity. }
    destruct (arrival net).
    - rewrite (fetchCoinGeckoPrices_failed _ _ Hcg).
      destruct (Horbe w1) as (r & w2 & ->). exists r, w2. reflexivity.
    - destruct (Horbe w1) as (r & w2 & ->).
      rewrite (fetchCoinGeckoPrices_failed _ _ Hcg).
      exists r, w2. reflexivity. }
  subst w'. unfold eval, exec, updatePriceCache, bind.
  destruct w as [[d l u] clk n]. simpl in Hidle. subst u.
  unfold updatePriceCache_enter, bind, read_cache. simpl isUpdating. cbv iota.
  unfold write_cache, Date_now, ret. simpl.
  match goal with
  | |- context [await_adapters net ?w1] =>
      destruct (Hawait w1) as (r & w2 & ->)
  end.
  rewrite resume_fulfilled. simpl.
  repeat split; repeat constructor.
Qed.

Lemma refresh_without_batch_drops_old_symbols_witness :
  Obj.get "BTC" (data (priceCache idle_world))
  = Some (sample_record 50000%float "coingecko")
  /\ Obj.keys (data (priceCache (exec (updatePriceCache orbe_only) idle_world)))
     = ["USDT"; "USDC"; "BUSD"; "DAI"; "ORBE"].
Proof.
  split; [reflexivity |].
  refine (proj1 (proj2 (refresh_without_batch_drops_old_symbols
                          orbe_only idle_world _ eq_refl I eq_refl _))).
  reflexivity.
Defined.

(** The scenario with both providers up: CoinGecko quotes bitcoin at
    50000 with a change of 2.5 (and ethereum at 0, which is dropped),
    DexScreener quotes the pair at [0.0012] with a change of -1.25. The
    published snapshot has six entries: the four stablecoins, BTC from
    [coingecko] and ORBE from [dexscreener]. *)
Theorem refresh_scenario_six_entries :
  let published :=
    data (priceCache (exec (updatePriceCache both_up) sample_world)) in
  Obj.keys published = ["USDT"; "USDC"; "BUSD"; "DAI"; "BTC"; "ORBE"]
  /\ Obj.get "USDT" published
     = Some {| price := 1%float; change24h := 0%float; source := "fixed";
               updatedAt := sample_clock 1 |}
  /\ Obj.get "BTC" published
     = Some {| price := 50000%float; change24h := 2.5%float;
               source := "coingecko"; updatedAt := sample_clock 5 |}
  /\ Obj.get "ORBE" published
     = Some {| price := JS.parseFloat "0.0012"; change24h := (-1.25)%float;
               source := "dexscreener"; updatedAt := sample_clock 6 |}
  /\ lastUpdate (priceCache (exec (updatePriceCache both_up) sample_world))
     = JS.VNum (sample_clock 7).
Proof. repeat split; vm_compute; reflexivity. Qed.

(* ================================================================== *)
(** ** The read routes *)
(* ================================================================== *)


Lemma getOne_missing param w :
  Obj.get (JS.toUpperCase param) (data (priceCache w)) = None ->
  getOne param w =
  (Ok (TokenNotFound 404 false
         ("Token " ++ JS.toUpperCase param ++ " not found")
         (Obj.keys (data (priceCache w)))),
   w).
Proof.
  intros Hk. unfold getOne, bind, read_cache.
  rewrite read_upper_own, Hk. reflexivity.
Qed.



Lemma getOne_found param w r :
  Obj.get (JS.toUpperCase param) (data (priceCache w)) = Some r ->
  getOne param w =
  (Ok (TokenFound 200 true (JS.toUpperCase param) (Obj.Own r)
         (lastUpdate (priceCache w))
         (JS.sub (JS.VNum (clock w (ticks w))) (lastUpdate (priceCache w)))),
   exec Date_now w).
Proof.
  intros Hget. unfold getOne, bind, read_cache.
  rewrite read_upper_own, Hget. reflexivity.
Qed.




(* ================================================================== *)
(** ** Invariants of the running process *)
(* ================================================================== *)

Lemma stamped_same c c' :
  data c' = data c -> lastUpdate c' = lastUpdate c -> stamped c -> stamped c'.
Proof. unfold stamped. intros -> ->. auto. Qed.

Lemma stamped_same_cache w w' :
  same_cache w w' -> stamped (priceCache w) -> stamped (priceCache w').
Proof. intros [-> _]. auto. Qed.

Lemma getAll_same_cache w : same_cache w (exec getAll w).
Proof.
  unfold exec, getAll, bind, read_cache.
  destruct (JS.truthy (lastUpdate (priceCache w))); split; reflexivity.
Qed.

Lemma getOne_same_cache param w : same_cache w (exec (getOne param) w).
Proof.
  unfold exec, getOne, bind, read_cache.
  destruct (negb _); split; reflexivity.
Qed.

Lemma fetchCoinGeckoPrices_same_cache response w :
  same_cache w (exec (fetchCoinGeckoPrices response) w).
Proof.
  destruct (fetchCoinGeckoPrices_total response w) as (snap & w' & H & Hc).
  unfold exec. now rewrite H.
Qed.

Lemma fetchOrbePrice_same_cache response w :
  same_cache w (exec (fetchOrbePrice response) w).
Proof.
  destruct (fetchOrbePrice_total response w) as (res & w' & H & Hc).
  unfold exec. now rewrite H.
Qed.

Lemma resume_stamped task settled w :
  stamped (priceCache w) ->
  stamped (priceCache (exec (updatePriceCache_resume task settled) w)).
Proof.
  intros H. destruct settled as [[coinGeckoData orbeData] | e]; unfold exec.
  - rewrite resume_fulfilled. intros _. eexists. reflexivity.
  - rewrite resume_rejected. revert H. apply stamped_same; reflexivity.
Qed.

(** Every segment keeps the pairing of a published snapshot with its
    time stamp. *)
Lemma step_stamped s s' :
  step s s' -> stamped (priceCache (world s)) -> stamped (priceCache (world s')).
Proof.
  intros Hstep H. destruct Hstep; simpl.
  - revert H. apply stamped_same; apply enter_frame.
  - now apply resume_stamped.
  - revert H. apply stamped_same_cache, fetchCoinGeckoPrices_same_cache.
  - revert H. apply stamped_same_cache, fetchOrbePrice_same_cache.
  - revert H. apply stamped_same_cache, getAll_same_cache.
  - revert H. apply stamped_same_cache, getOne_same_cache.
  - exact H.
Qed.

Lemma reachable_stamped s : reachable s -> stamped (priceCache (world s)).
Proof.
  induction 1 as [clk | s s' _ IH Hstep].
  - intros Hne. now contradiction Hne.
  - now apply (step_stamped s s').
Qed.

(** C10. In every state the process can reach, by any interleaving of
    refresh segments, adapter continuations and requests, a non-empty
    snapshot comes with a numeric [lastUpdate]. Hence whenever
    [GET /api/prices/:token] answers from its found branch, [lastUpdate]
    is a number [t] and the reported [cacheAge] is the clock reading minus
    [t]: the unguarded subtraction never meets [null]. *)
Theorem found_branch_has_lastUpdate :
  forall s : System,
    reachable s ->
    stamped (priceCache (world s))
    /\ forall param status success token found_data found_lastUpdate
              found_cacheAge w',
        getOne param (world s)
        = (Ok (TokenFound status success token found_data found_lastUpdate
                 found_cacheAge), w') ->
        exists t,
          lastUpdate (priceCache (world s)) = JS.VNum t
          /\ found_lastUpdate = JS.VNum t
          /\ found_cacheAge
             = JS.VNum (PrimFloat.sub (clock (world s) (ticks (world s))) t).
Proof.
  intros s Hs. pose proof (reachable_stamped s Hs) as Hst.
  split; [exact Hst |].
  intros param status success token fd fl fa w' Hrun.
  destruct (Obj.get (JS.toUpperCase param) (data (priceCache (world s))))
    as [r|] eqn:Hget.
  - destruct Hst as [t Ht].
    { intros Hempty. rewrite Hempty in Hget. discriminate. }
    rewrite (getOne_found _ _ _ Hget), Ht in Hrun.
    injection Hrun as _ _ _ _ <- <- _. exists t. repeat split. exact Ht.
  - rewrite (getOne_missing _ _ Hget) in Hrun. discriminate.
Qed.

Lemma refreshed_system_reachable : reachable refreshed_system.
Proof.
  pose (s1 := {| world := exec updatePriceCache_enter sample_world;
                 tasks :=
                   match eval updatePriceCache_enter sample_world with
                   | Ok (Some task) => [task]
                   | _ => []
                   end |}).
  apply (reachable_step s1).
  - apply (reachable_step (boot sample_clock)).
    + apply reachable_boot.
    + exact (step_call (boot sample_clock)).
  - refine (step_settle s1 [] _ [] (Fulfilled ([], None)) _). reflexivity.
Qed.

Lemma found_branch_has_lastUpdate_witness :
  exists t,
    lastUpdate (priceCache (world refreshed_system)) = JS.VNum t
    /\ JS.VNum (sample_clock 5) = JS.VNum t
    /\ JS.VNum (PrimFloat.sub (sample_clock 7) (sample_clock 5))
       = JS.VNum (PrimFloat.sub (clock (world refreshed_system)
                                   (ticks (world refreshed_system))) t).
Proof.
  exact (proj2 (found_branch_has_lastUpdate refreshed_system
                  refreshed_system_reachable)
           "usdt" _ _ _ _ _ _ _
           (getOne_found "usdt" (world refreshed_system)
              {| price := 1%float; change24h := 0%float; source := "fixed";
                 updatedAt := sample_clock 1 |} eq_refl)).
Defined.

Lemma step_guarded s s' : step s s' -> guarded s -> guarded s'.
Proof.
  intros Hstep H. unfold guarded in *.
  destruct Hstep as [s | s before task after settled Htasks
                     | s response | s response | s | s param | s]; simpl.
  - destruct (isUpdating (priceCache (world s))) eqn:Hup.
    + unfold exec, eval. rewrite (enter_skips _ Hup). simpl.
      rewrite Hup. exact H.
    + destruct (enter_starts _ Hup) as (task & w' & Hrun & _ & _ & Hflag & _).
      unfold exec, eval. rewrite Hrun. simpl.
      destruct (tasks s) as [|t0 [|t1 rest]];
        [exact Hflag | discriminate H | contradiction].
  - rewrite Htasks in H.
    destruct before as [|b0 before]; simpl in *.
    + destruct after; [|contradiction].
      destruct settled as [[cg orbe] | e]; unfold exec;
        [rewrite resume_fulfilled | rewrite resume_rejected]; reflexivity.
    + destruct before; simpl in H; contradiction.
  - destruct (fetchCoinGeckoPrices_same_cache response (world s)) as [-> _].
    exact H.
  - destruct (fetchOrbePrice_same_cache response (world s)) as [-> _].
    exact H.
  - destruct (getAll_same_cache (world s)) as [-> _]. exact H.
  - destruct (getOne_same_cache param (world s)) as [-> _]. exact H.
  - exact H.
Qed.

(** X3. The guard admits one refresh at a time: in every reachable state
    at most one call of [updatePriceCache] is suspended at its [await],
    and [isUpdating] is [true] exactly when one is. *)
Theorem at_most_one_refresh_in_flight :
  forall s : System,
    reachable s ->
    (List.length (tasks s) <= 1)%nat
    /\ (isUpdating (priceCache (world s)) = true <-> tasks s <> []).
Proof.
  intros s Hs.
  assert (Hg : guarded s).
  { induction Hs as [clk | s s' _ IH Hstep]; [reflexivity |].
    now apply (step_guarded s s'). }
  unfold guarded in Hg. destruct (tasks s) as [|t0 [|t1 rest]]; simpl.
  - rewrite Hg. split; [lia |]. split; [discriminate | intros H; now contradiction H].
  - rewrite Hg. split; [lia |]. split; [discriminate | reflexivity].
  - contradiction.
Qed.

Lemma at_most_one_refresh_in_flight_witness :
  (List.length (tasks refreshed_system) <= 1)%nat.
Proof.
  exact (proj1 (at_most_one_refresh_in_flight refreshed_system
                  refreshed_system_reachable)).
Defined.

(* ================================================================== *)
(** ** Dictionaries: keys and entries after writes *)
(* ================================================================== *)

Section ObjWrites.
Context {A : Type}.
Implicit Types (o target source : Obj.t A) (k : string) (v : A).

Lemma keys_set_present k v o :
  In k (Obj.keys o) -> Obj.keys (Obj.set k v o) = Obj.keys o.
Proof.
  induction o as [|[k' v'] o IH]; simpl; intros Hin.
  - contradiction.
  - destruct (String.eqb k' k) eqn:E; simpl; [reflexivity |].
    apply String.eqb_neq in E. rewrite IH; [reflexivity | tauto].
Qed.

Lemma keys_set_extends k v o :
  exists rest, Obj.keys (Obj.set k v o) = Obj.keys o ++ rest.
Proof.
  destruct (in_dec string_dec k (Obj.keys o)) as [Hin | Hout].
  - exists []. rewrite keys_set_present by exact Hin. now rewrite app_nil_r.
  - exists [k]. now apply keys_set_absent.
Qed.

Lemma set_wf k v o : Obj.wf o -> Obj.wf (Obj.set k v o).
Proof.
  unfold Obj.wf. intros Hwf.
  destruct (in_dec string_dec k (Obj.keys o)) as [Hin | Hout].
  - now rewrite keys_set_present.
  - rewrite keys_set_absent by exact Hout.
    apply NoDup_app; [exact Hwf | repeat constructor; simpl; tauto |].
    intros x Hx [<- | []]. contradiction.
Qed.

Lemma keys_assign_extends target source :
  exists rest, Obj.keys (Obj.assign target source) = Obj.keys target ++ rest.
Proof.
  revert target. induction source as [|[k v] source IH]; intros target.
  - exists []. simpl. now rewrite app_nil_r.
  - unfold Obj.assign. simpl. fold (Obj.assign (Obj.set k v target) source).
    destruct (IH (Obj.set k v target)) as [rest1 H1].
    destruct (keys_set_extends k v target) as [rest0 H0].
    exists (rest0 ++ rest1). now rewrite H1, H0, app_assoc.
Qed.

Lemma assign_wf target source :
  Obj.wf target -> Obj.wf (Obj.assign target source).
Proof.
  revert target. induction source as [|[k v] source IH]; intros target Hwf.
  - exact Hwf.
  - unfold Obj.assign. simpl. fold (Obj.assign (Obj.set k v target) source).
    apply IH. now apply set_wf.
Qed.

Lemma get_In_keys k o : In k (Obj.keys o) -> exists v, Obj.get k o = Some v.
Proof.
  intros Hin. destruct (Obj.get k o) as [v|] eqn:E; [now exists v |].
  apply get_None_not_In in E. contradiction.
Qed.
End ObjWrites.

Section ObjForall.
Context {A : Type}.
Implicit Types (o target source : Obj.t A) (k : string) (v : A).
Variable P : string * A -> Prop.

Lemma Forall_set k v o : P (k, v) -> Forall P o -> Forall P (Obj.set k v o).
Proof.
  intros Hkv Ho. induction Ho as [|[k' v'] o Hhd Htl IH]; simpl.
  - repeat constructor. exact Hkv.
  - destruct (String.eqb k' k) eqn:E.
    + apply String.eqb_eq in E. subst k'. now constructor.
    + now constructor.
Qed.

Lemma Forall_assign target source :
  Forall P target -> Forall P source -> Forall P (Obj.assign target source).
Proof.
  intros Ht Hs. revert target Ht.
  induction Hs as [|[k v] source Hhd Htl IH]; intros target Ht.
  - exact Ht.
  - unfold Obj.assign. simpl. fold (Obj.assign (Obj.set k v target) source).
    apply IH. now apply Forall_set.
Qed.

Lemma get_Forall k v o : Forall P o -> Obj.get k o = Some v -> P (k, v).
Proof.
  intros Ho. induction Ho as [|[k' v'] o Hhd Htl IH]; simpl; [discriminate |].
  destruct (String.eqb k' k) eqn:E; [|exact IH].
  apply String.eqb_eq in E. subst k'. now intros [= <-].
Qed.
End ObjForall.

(* ================================================================== *)
(** ** What the adapters return *)
(* ================================================================== *)

Lemma coinGecko_entries_wf entries body prices w snap :
  Obj.wf prices ->
  eval (coinGecko_entries entries body prices) w = Ok snap ->
  Obj.wf snap.
Proof.
  revert prices w. induction entries as [|[symbol id] rest IH];
    intros prices w Hwf.
  - unfold eval; simpl. now intros [= <-].
  - simpl. destruct (Obj.get id body) as [quote|]; [|now apply IH].
    destruct (usd quote) as [p|]; [|now apply IH].
    destruct (JS.gt p 0%float); [|now apply IH].
    unfold eval, bind, Date_now. apply IH. now apply set_wf.
Qed.

(** The loop leaves alone the symbols it does not visit. *)
Lemma coinGecko_entries_other entries body prices w snap k :
  ~ In k (Obj.keys entries) ->
  eval (coinGecko_entries entries body prices) w = Ok snap ->
  Obj.get k snap = Obj.get k prices.
Proof.
  revert prices w. induction entries as [|[symbol id] rest IH];
    intros prices w Hk.
  - unfold eval; simpl. now intros [= <-].
  - simpl in Hk. simpl.
    destruct (Obj.get id body) as [quote|]; [|apply IH; tauto].
    destruct (usd quote) as [p|]; [|apply IH; tauto].
    destruct (JS.gt p 0%float); [|apply IH; tauto].
    unfold eval, bind, Date_now. intros Hrun.
    apply IH in Hrun; [|tauto]. rewrite Hrun. apply get_set_other. tauto.
Qed.

(** A quote that passes the test gets its symbol into the result. *)
Lemma coinGecko_entries_complete entries body prices w snap k id quote p :
  NoDup (Obj.keys entries) ->
  Obj.get k entries = Some id ->
  Obj.get id body = Some quote ->
  usd quote = Some p ->
  JS.gt p 0%float = true ->
  eval (coinGecko_entries entries body prices) w = Ok snap ->
  exists r, Obj.get k snap = Some r /\ price r = p.
Proof.
  revert prices w. induction entries as [|[symbol id'] rest IH];
    intros prices w Hnd Hk Hq Hu Hpos; [discriminate |].
  simpl in Hnd, Hk. inversion Hnd as [|? ? Hnotin Hnd']; subst.
  destruct (String.eqb symbol k) eqn:E.
  - apply String.eqb_eq in E. subst symbol. injection Hk as ->.
    simpl. rewrite Hq, Hu, Hpos. unfold eval, bind, Date_now. intros Hrun.
    apply (coinGecko_entries_other rest body _ _ snap k Hnotin) in Hrun.
    rewrite Hrun, get_set_same. eexists. split; reflexivity.
  - simpl.
    destruct (Obj.get id' body) as [quote'|]; [|now apply IH].
    destruct (usd quote') as [p'|]; [|now apply IH].
    destruct (JS.gt p' 0%float); [|now apply IH].
    unfold eval, bind, Date_now. now apply IH.
Qed.

Lemma fetchCoinGeckoPrices_Json_eval body w snap :
  eval (fetchCoinGeckoPrices (Json body)) w = Ok snap ->
  eval (coinGecko_entries COINGECKO_IDS body []) w = Ok snap.
Proof.
  destruct (coinGecko_entries_total COINGECKO_IDS body [] w)
    as (snap' & w' & Hrun & _).
  unfold eval, fetchCoinGeckoPrices, try_catch, try_catch_finally.
  rewrite Hrun. simpl. now intros [= <-].
Qed.

Lemma coinGecko_entries_quoted body entries :
  Forall (fun e => Obj.get (fst e) COINGECKO_IDS = Some (snd e)) entries ->
  forall prices w snap,
    Forall (quoted body) prices ->
    eval (coinGecko_entries entries body prices) w = Ok snap ->
    Forall (quoted body) snap.
Proof.
  induction entries as [|[symbol id] rest IH]; intros Hids prices w snap Hp.
  - unfold eval; simpl. now intros [= <-].
  - inversion Hids as [|? ? Hid Hids']; subst. simpl in Hid. simpl.
    destruct (Obj.get id body) as [quote|] eqn:Hq; [|now apply IH].
    destruct (usd quote) as [p|] eqn:Hu; [|now apply IH].
    destruct (JS.gt p 0%float) eqn:Hpos; [|now apply IH].
    unfold eval, bind, Date_now. apply IH; [exact Hids' |].
    apply Forall_set; [|exact Hp].
    exists id, quote, p. simpl. repeat split; assumption.
Qed.

Lemma fetchCoinGeckoPrices_quoted body w snap :
  eval (fetchCoinGeckoPrices (Json body)) w = Ok snap ->
  Obj.wf snap /\ Forall (quoted body) snap.
Proof.
  intros Hrun. apply fetchCoinGeckoPrices_Json_eval in Hrun. split.
  - apply (coinGecko_entries_wf COINGECKO_IDS body [] w snap);
      [constructor | exact Hrun].
  - apply (coinGecko_entries_quoted body COINGECKO_IDS) with (prices := [])
                                                             (w := w);
      [repeat constructor | constructor | exact Hrun].
Qed.

(** X4. On a readable body the batch adapter returns an object in which
    every entry is the record of a quote of the body whose [usd] is [> 0],
    under the symbol that [COINGECKO_IDS] maps to the quote's id, with
    the change defaulted to [0]; and every such quote is in it. *)
Theorem fetchCoinGeckoPrices_exact :
  forall (body : CoinGeckoBody) (w : World) (snap : Snapshot),
    eval (fetchCoinGeckoPrices (Json body)) w = Ok snap ->
    Obj.wf snap
    /\ Forall (quoted body) snap
    /\ forall symbol id quote p,
         Obj.get symbol COINGECKO_IDS = Some id ->
         Obj.get id body = Some quote ->
         usd quote = Some p ->
         JS.gt p 0%float = true ->
         exists r, Obj.get symbol snap = Some r /\ price r = p.
Proof.
  intros body w snap Hrun.
  destruct (fetchCoinGeckoPrices_quoted body w snap Hrun) as [Hwf Hq].
  split; [exact Hwf | split; [exact Hq |]].
  apply fetchCoinGeckoPrices_Json_eval in Hrun.
  intros symbol id quote p Hid Hquote Hu Hpos.
  apply (coinGecko_entries_complete COINGECKO_IDS body [] w snap
           symbol id quote p); try assumption.
  repeat constructor; simpl; intuition discriminate.
Qed.

Lemma fetchCoinGeckoPrices_exact_witness :
  exists r,
    Obj.get "BTC"
      [("BTC", {| price := 50000%float; change24h := 2.5%float;
                  source := "coingecko"; updatedAt := sample_clock 0 |})]
    = Some r
    /\ price r = 50000%float.
Proof.
  exact (proj2 (proj2 (fetchCoinGeckoPrices_exact sample_quotes sample_world
                         _ eq_refl))
           "BTC" "bitcoin"
           {| usd := Some 50000%float; usd_24h_change := Some 2.5%float |}
           50000%float eq_refl eq_refl eq_refl eq_refl).
Defined.

Lemma quoted_sourced body kv : quoted body kv -> sourced kv.
Proof.
  intros (id & quote & p & Hid & _ & _ & Hpos & Hp & _ & Hsrc).
  right; left. split; [|split; [exact Hsrc | now rewrite Hp]].
  destruct kv as [k r]. cbn [fst snd] in *.
  unfold COINGECKO_IDS in Hid. cbn [Obj.get] in Hid.
  repeat match type of Hid with
         | (if String.eqb ?a k then _ else _) = _ =>
             destruct (String.eqb a k) eqn:E;
             [apply String.eqb_eq in E; subst k; simpl; tauto | clear E]
         end.
  discriminate.
Qed.

Lemma fetchCoinGeckoPrices_sourced response w snap :
  eval (fetchCoinGeckoPrices response) w = Ok snap ->
  Forall sourced snap.
Proof.
  destruct response as [m|st|m|body];
    try (intros [= <-]; constructor).
  intros Hrun.
  destruct (fetchCoinGeckoPrices_quoted body w snap Hrun) as [_ Hq].
  revert Hq. apply Forall_impl. intros kv. apply quoted_sourced.
Qed.

Lemma fetchOrbePrice_shape response w o :
  eval (fetchOrbePrice response) w = Ok (Some o) ->
  exists r, o = [("ORBE", r)] /\ source r = "dexscreener".
Proof.
  unfold eval, fetchOrbePrice, try_catch, try_catch_finally.
  destruct response as [m|st|m|body]; try discriminate.
  destruct (pair body) as [p|]; [|discriminate].
  destruct (priceUsd p) as [raw|]; [|discriminate].
  destruct (truthy_scalar (Some raw)); [|discriminate].
  simpl. intros [= <-]. eexists. split; reflexivity.
Qed.

Lemma fetchOrbePrice_sourced response w o :
  eval (fetchOrbePrice response) w = Ok (Some o) -> Forall sourced o.
Proof.
  intros Hrun. destruct (fetchOrbePrice_shape _ _ _ Hrun) as (r & -> & Hsrc).
  constructor; [|constructor].
  right; right. split; [reflexivity | exact Hsrc].
Qed.

(** X5. Neither adapter ever throws or touches the cache, whatever the
    network does: a rejected fetch, a non-OK status and an unreadable
    body give [{}] from the batch adapter and [null] from the single-pair
    adapter, and the single-pair adapter otherwise returns [null] or
    exactly one entry, keyed ORBE, with source [dexscreener]. *)
Theorem adapters_never_throw :
  forall (batch : HttpResult CoinGeckoBody)
         (single : HttpResult DexScreenerBody) (w : World),
    (exists snap, eval (fetchCoinGeckoPrices batch) w = Ok snap
                  /\ (failed batch -> snap = []))
    /\ same_cache w (exec (fetchCoinGeckoPrices batch) w)
    /\ (exists res,
          eval (fetchOrbePrice single) w = Ok res
          /\ (failed single -> res = None)
          /\ match res with
             | None => True
             | Some o => exists r, o = [("ORBE", r)]
                                   /\ source r = "dexscreener"
             end)
    /\ same_cache w (exec (fetchOrbePrice single) w).
Proof.
  intros batch single w. split; [|split; [|split]].
  - destruct (fetchCoinGeckoPrices_total batch w) as (snap & w' & Hrun & _).
    exists snap. unfold eval. rewrite Hrun. split; [reflexivity |].
    intros Hf. rewrite (fetchCoinGeckoPrices_failed _ _ Hf) in Hrun.
    now injection Hrun as <- _.
  - apply fetchCoinGeckoPrices_same_cache.
  - destruct (fetchOrbePrice_total single w) as (res & w' & Hrun & _).
    exists res. assert (He : eval (fetchOrbePrice single) w = Ok res).
    { unfold eval. now rewrite Hrun. }
    split; [exact He | split].
    + intros Hf. rewrite (fetchOrbePrice_failed _ _ Hf) in Hrun.
      now injection Hrun as <- _.
    + destruct res as [o|]; [|exact I].
      apply (fetchOrbePrice_shape _ _ _ He).
  - apply fetchOrbePrice_same_cache.
Qed.

(* ================================================================== *)
(** ** What a refresh publishes *)
(* ================================================================== *)

Lemma sourced_stablecoin k r :
  In k STABLECOINS -> sourced (k, r) -> is_fixed r.
Proof.
  intros Hk [[_ H] | [[Hs _] | [He _]]]; [exact H | exfalso ..];
    simpl in *;
    repeat match goal with
           | H : _ \/ _ |- _ => destruct H
           | H : False |- _ => contradiction
           end; subst; discriminate.
Qed.

Lemma sourced_known k r :
  sourced (k, r) -> In k (STABLECOINS ++ STANDARD_TOKENS ++ ["ORBE"]).
Proof.
  intros [[H _] | [[H _] | [H _]]]; simpl in H.
  - apply in_or_app. now left.
  - apply in_or_app. right. apply in_or_app. now left.
  - subst. apply in_or_app. right. apply in_or_app. right. now left.
Qed.

Lemma merged_good nd cg orbe :
  Obj.keys nd = STABLECOINS ->
  Forall sourced nd ->
  Forall sourced cg ->
  match orbe with Some o => Forall sourced o | None => True end ->
  good_snapshot
    match orbe with
    | Some o => Obj.assign (Obj.assign nd cg) o
    | None => Obj.assign nd cg
    end.
Proof.
  intros Hk Hnd Hcg Horbe.
  assert (Hwf : Obj.wf nd).
  { unfold Obj.wf. rewrite Hk. repeat constructor; simpl; intuition discriminate. }
  assert (H1 : good_snapshot (Obj.assign nd cg)).
  { split; [now apply assign_wf | split; [now apply Forall_assign |]].
    destruct (keys_assign_extends nd cg) as [rest Hrest].
    exists rest. now rewrite Hrest, Hk. }
  destruct orbe as [o|]; [|exact H1].
  destruct H1 as (Hw1 & Hs1 & rest1 & Hk1).
  split; [now apply assign_wf | split; [now apply Forall_assign |]].
  destruct (keys_assign_extends (Obj.assign nd cg) o) as [rest Hrest].
  exists (rest1 ++ rest). now rewrite Hrest, Hk1, app_assoc.
Qed.

Lemma good_snapshot_stablecoin d k :
  good_snapshot d -> In k STABLECOINS ->
  exists r, Obj.get k d = Some r /\ is_fixed r.
Proof.
  intros (Hwf & Hs & rest & Hk) Hin.
  destruct (get_In_keys k d) as [r Hr].
  { rewrite Hk. apply in_or_app. now left. }
  exists r. split; [exact Hr |].
  apply (sourced_stablecoin k r Hin). now apply (get_Forall sourced k r d).
Qed.

Lemma good_snapshot_size d :
  good_snapshot d ->
  (4 <= List.length (Obj.keys d) <= 9)%nat
  /\ incl (Obj.keys d) (STABLECOINS ++ STANDARD_TOKENS ++ ["ORBE"]).
Proof.
  intros (Hwf & Hs & rest & Hk).
  assert (Hincl : incl (Obj.keys d) (STABLECOINS ++ STANDARD_TOKENS ++ ["ORBE"])).
  { intros k Hin. destruct (get_In_keys k d Hin) as [r Hr].
    apply (sourced_known k r). now apply (get_Forall sourced k r d). }
  split; [split | exact Hincl].
  - rewrite Hk, length_app. simpl. lia.
  - apply (NoDup_incl_length Hwf) in Hincl. exact Hincl.
Qed.

Lemma fixed_entries_sourced (nd : Snapshot) :
  Obj.keys nd = STABLECOINS ->
  Forall (fun kv => is_fixed (snd kv)) nd ->
  Forall sourced nd.
Proof.
  intros Hk Hf. rewrite Forall_forall in *. intros [k r] Hin. left. split.
  - cbn [fst]. rewrite <- Hk. apply (in_map fst) in Hin. exact Hin.
  - apply (Hf (k, r) Hin).
Qed.

Lemma await_adapters_sourced net w :
  exists coinGeckoData orbeData w',
    await_adapters net w = (Ok (Fulfilled (coinGeckoData, orbeData)), w')
    /\ same_cache w w'
    /\ Forall sourced coinGeckoData
    /\ match orbeData with
       | Some o => Forall sourced o
       | None => True
       end.
Proof.
  assert (Hcg : forall w0 a w1,
             fetchCoinGeckoPrices (coingecko net) w0 = (Ok a, w1) ->
             Forall sourced a).
  { intros w0 a w1 H. apply (fetchCoinGeckoPrices_sourced (coingecko net) w0).
    unfold eval. now rewrite H. }
  assert (Horbe : forall w0 b w1,
             fetchOrbePrice (dexscreener net) w0 = (Ok b, w1) ->
             match b with Some o => Forall sourced o | None => True end).
  { intros w0 [o|] w1 H; [|exact I].
    apply (fetchOrbePrice_sourced (dexscreener net) w0).
    unfold eval. now rewrite H. }
  unfold await_adapters. destruct (arrival net).
  - destruct (fetchCoinGeckoPrices_total (coingecko net) w) as (a & w1 & Ha & Hc1).
    destruct (fetchOrbePrice_total (dexscreener net) w1) as (b & w2 & Hb & Hc2).
    rewrite Ha, Hb. exists a, b, w2. split; [reflexivity |].
    split; [eapply same_cache_trans; eassumption |].
    split; [eapply Hcg; eassumption | eapply Horbe; eassumption].
  - destruct (fetchOrbePrice_total (dexscreener net) w) as (b & w1 & Hb & Hc1).
    destruct (fetchCoinGeckoPrices_total (coingecko net) w1) as (a & w2 & Ha & Hc2).
    rewrite Hb, Ha. exists a, b, w2. split; [reflexivity |].
    split; [eapply same_cache_trans; eassumption |].
    split; [eapply Hcg; eassumption | eapply Horbe; eassumption].
Qed.

(** A call that passes the guard publishes a good snapshot with its time
    stamp and clears the flag. *)
Lemma cycle_publishes net w :
  isUpdating (priceCache w) = false ->
  eval (updatePriceCache net) w = Ok tt
  /\ exists d t,
       priceCache (exec (updatePriceCache net) w)
       = {| data := d; lastUpdate := JS.VNum t; isUpdating := false |}
       /\ good_snapshot d.
Proof.
  intros Hidle.
  destruct (enter_starts w Hidle)
    as (task & w1 & Henter & _ & _ & _ & Hkeys & Hfixed).
  destruct (await_adapters_sourced net w1)
    as (cg & orbe & w2 & Hawait & _ & Hcg & Horbe).
  unfold eval, exec, updatePriceCache, bind.
  rewrite Henter, Hawait, resume_fulfilled. simpl.
  split; [reflexivity |]. eexists _, _. split; [reflexivity |].
  apply merged_good; try assumption.
  now apply fixed_entries_sourced.
Qed.

(** X6. Whatever the two providers answer, and in whatever order, a
    refresh that passes the guard serves every stablecoin afterwards, at
    price 1, change 0, source [fixed]: no adapter result can displace
    them. *)
Theorem refresh_always_serves_stablecoins :
  forall (net : Network) (w : World) (symbol : string),
    isUpdating (priceCache w) = false ->
    In symbol STABLECOINS ->
    exists r,
      Obj.get symbol (data (priceCache (exec (updatePriceCache net) w)))
      = Some r
      /\ is_fixed r.
Proof.
  intros net w symbol Hidle Hin.
  destruct (cycle_publishes net w Hidle) as (_ & d & t & -> & Hgood).
  now apply good_snapshot_stablecoin.
Qed.

Lemma refresh_always_serves_stablecoins_witness :
  exists r,
    Obj.get "DAI" (data (priceCache (exec (updatePriceCache both_up) idle_world)))
    = Some r
    /\ is_fixed r.
Proof.
  apply (refresh_always_serves_stablecoins both_up idle_world "DAI").
  - reflexivity.
  - simpl. tauto.
Defined.

(** X7. The snapshot a refresh publishes, whatever the providers answer:
    no key twice; the four stablecoins first, in their order; every key
    is a stablecoin, one of BTC, ETH, BNB, SOL, or ORBE, so between 4 and
    9 entries; a record under BTC, ETH, BNB or SOL comes from [coingecko]
    with a price [> 0], one under ORBE from [dexscreener]; and
    [lastUpdate] is a number. *)
Theorem refresh_snapshot_shape :
  forall (net : Network) (w : World),
    isUpdating (priceCache w) = false ->
    let c := priceCache (exec (updatePriceCache net) w) in
    NoDup (Obj.keys (data c))
    /\ firstn 4 (Obj.keys (data c)) = STABLECOINS
    /\ incl (Obj.keys (data c)) (STABLECOINS ++ STANDARD_TOKENS ++ ["ORBE"])
    /\ (4 <= List.length (Obj.keys (data c)) <= 9)%nat
    /\ (forall k r, Obj.get k (data c) = Some r ->
          (In k STANDARD_TOKENS ->
             source r = "coingecko" /\ JS.gt (price r) 0%float = true)
          /\ (k = "ORBE" -> source r = "dexscreener"))
    /\ exists t, lastUpdate c = JS.VNum t.
Proof.
  intros net w Hidle c.
  destruct (cycle_publishes net w Hidle) as (_ & d & t & Hc & Hgood).
  subst c. rewrite Hc. simpl.
  destruct (good_snapshot_size d Hgood) as [Hlen Hincl].
  destruct Hgood as (Hwf & Hs & rest & Hk).
  split; [exact Hwf |]. split; [now rewrite Hk |].
  split; [exact Hincl |]. split; [exact Hlen |].
  split; [|now exists t].
  intros k r Hget. pose proof (get_Forall sourced k r d Hs Hget) as Hsrc.
  split.
  - intros Hin.
    destruct Hsrc as [[Hst _] | [[_ H] | [He _]]]; [exfalso | exact H | exfalso];
      simpl in *;
      repeat match goal with
             | H : _ \/ _ |- _ => destruct H
             | H : False |- _ => contradiction
             end; subst; discriminate.
  - intros ->.
    destruct Hsrc as [[Hst _] | [[Hst _] | [_ H]]]; [exfalso | exfalso | exact H];
      simpl in Hst;
      repeat match goal with
             | H : _ \/ _ |- _ => destruct H
             | H : False |- _ => contradiction
             end; discriminate.
Qed.

Lemma refresh_snapshot_shape_witness :
  (4 <= List.length
          (Obj.keys (data (priceCache (exec (updatePriceCache both_up)
                                         idle_world)))) <= 9)%nat.
Proof.
  exact (proj1 (proj2 (proj2 (proj2
           (refresh_snapshot_shape both_up idle_world eq_refl))))).
Defined.

(* ================================================================== *)
(** ** What a refresh depends on *)
(* ================================================================== *)

Lemma untimed_set k r (d : Snapshot) :
  untimed_snapshot (Obj.set k r d)
  = Obj.set k (untimed r) (untimed_snapshot d).
Proof.
  induction d as [|[k' r'] d IH]; simpl; [reflexivity |].
  destruct (String.eqb k' k); simpl; [reflexivity | now rewrite IH].
Qed.

Lemma untimed_assign (target source : Snapshot) :
  untimed_snapshot (Obj.assign target source)
  = Obj.assign (untimed_snapshot target) (untimed_snapshot source).
Proof.
  revert target. induction source as [|[k r] source IH]; intros target.
  - reflexivity.
  - unfold Obj.assign. simpl.
    fold (Obj.assign (Obj.set k r target) source).
    rewrite IH, untimed_set. reflexivity.
Qed.

Lemma coinGecko_entries_untimed entries body :
  forall prices1 prices2 w1 w2 snap1 snap2,
    untimed_snapshot prices1 = untimed_snapshot prices2 ->
    eval (coinGecko_entries entries body prices1) w1 = Ok snap1 ->
    eval (coinGecko_entries entries body prices2) w2 = Ok snap2 ->
    untimed_snapshot snap1 = untimed_snapshot snap2.
Proof.
  induction entries as [|[symbol id] rest IH];
    intros prices1 prices2 w1 w2 snap1 snap2 Hp.
  - unfold eval; simpl. now intros [= <-] [= <-].
  - simpl. destruct (Obj.get id body) as [quote|]; [|now apply IH].
    destruct (usd quote) as [p|]; [|now apply IH].
    destruct (JS.gt p 0%float); [|now apply IH].
    unfold eval, bind, Date_now. apply IH.
    rewrite !untimed_set. now rewrite Hp.
Qed.

Lemma fetchCoinGeckoPrices_untimed response w1 w2 snap1 snap2 :
  eval (fetchCoinGeckoPrices response) w1 = Ok snap1 ->
  eval (fetchCoinGeckoPrices response) w2 = Ok snap2 ->
  untimed_snapshot snap1 = untimed_snapshot snap2.
Proof.
  destruct response as [m|st|m|body];
    try (intros [= <-] [= <-]; reflexivity).
  intros H1 H2. apply fetchCoinGeckoPrices_Json_eval in H1, H2.
  now apply (coinGecko_entries_untimed COINGECKO_IDS body [] [] w1 w2).
Qed.

Lemma fetchOrbePrice_untimed response w1 w2 res1 res2 :
  eval (fetchOrbePrice response) w1 = Ok res1 ->
  eval (fetchOrbePrice response) w2 = Ok res2 ->
  option_map untimed_snapshot res1 = option_map untimed_snapshot res2.
Proof.
  unfold eval, fetchOrbePrice, try_catch, try_catch_finally.
  destruct response as [m|st|m|body];
    try (intros [= <-] [= <-]; reflexivity).
  destruct (pair body) as [p|]; [|intros [= <-] [= <-]; reflexivity].
  destruct (priceUsd p) as [raw|]; [|intros [= <-] [= <-]; reflexivity].
  destruct (truthy_scalar (Some raw)); intros [= <-] [= <-]; reflexivity.
Qed.

Lemma enter_untimed w :
  isUpdating (priceCache w) = false ->
  exists task w',
    updatePriceCache_enter w = (Ok (Some task), w')
    /\ untimed_snapshot (newData task)
       = map (fun k => (k, (1%float, 0%float, "fixed"))) STABLECOINS.
Proof.
  intros H. destruct w as [[d l u] clk n]. simpl in H. subst u.
  eexists _, _. split; reflexivity.
Qed.

(** The two adapter results a whole call merges, as evaluations of the
    adapters on the call's two responses. *)
Lemma cycle_data net w :
  isUpdating (priceCache w) = false ->
  exists task w1 wa wb cg orbe,
    updatePriceCache_enter w = (Ok (Some task), w1)
    /\ eval (fetchCoinGeckoPrices (coingecko net)) wa = Ok cg
    /\ eval (fetchOrbePrice (dexscreener net)) wb = Ok orbe
    /\ data (priceCache (exec (updatePriceCache net) w))
       = match orbe with
         | Some o => Obj.assign (Obj.assign (newData task) cg) o
         | None => Obj.assign (newData task) cg
         end.
Proof.
  intros Hidle.
  destruct (enter_starts w Hidle) as (task & w1 & Henter & _).
  exists task, w1.
  unfold exec, updatePriceCache, bind. rewrite Henter.
  unfold await_adapters. destruct (arrival net).
  - destruct (fetchCoinGeckoPrices_total (coingecko net) w1) as (a & w2 & Ha & _).
    destruct (fetchOrbePrice_total (dexscreener net) w2) as (b & w3 & Hb & _).
    exists w1, w2, a, b. unfold eval. rewrite Ha, Hb.
    cbv beta iota zeta. cbn [Promise_all fst snd]. rewrite resume_fulfilled.
    repeat split; reflexivity.
  - destruct (fetchOrbePrice_total (dexscreener net) w1) as (b & w2 & Hb & _).
    destruct (fetchCoinGeckoPrices_total (coingecko net) w2) as (a & w3 & Ha & _).
    exists w2, w1, a, b. unfold eval. rewrite Hb. cbv beta iota zeta.
    rewrite Ha.
    cbv beta iota zeta. cbn [Promise_all fst snd]. rewrite resume_fulfilled.
    repeat split; reflexivity.
Qed.

(** X8. Time stamps apart, the snapshot a refresh publishes is a function
    of the two HTTP outcomes alone: two calls that pass the guard and get
    the same two responses publish the same symbols in the same order with
    the same prices, changes and sources, whatever the previous cache
    contents, the clock and the order in which the responses arrived. *)
Theorem refresh_depends_on_responses_only :
  forall (net1 net2 : Network) (w1 w2 : World),
    isUpdating (priceCache w1) = false ->
    isUpdating (priceCache w2) = false ->
    coingecko net1 = coingecko net2 ->
    dexscreener net1 = dexscreener net2 ->
    untimed_snapshot (data (priceCache (exec (updatePriceCache net1) w1)))
    = untimed_snapshot (data (priceCache (exec (updatePriceCache net2) w2))).
Proof.
  intros net1 net2 w1 w2 Hidle1 Hidle2 Hcg Hdex.
  destruct (cycle_data net1 w1 Hidle1)
    as (t1 & v1 & wa1 & wb1 & cg1 & o1 & He1 & Ha1 & Hb1 & ->).
  destruct (cycle_data net2 w2 Hidle2)
    as (t2 & v2 & wa2 & wb2 & cg2 & o2 & He2 & Ha2 & Hb2 & ->).
  rewrite Hcg in Ha1. rewrite Hdex in Hb1.
  pose proof (fetchCoinGeckoPrices_untimed _ _ _ _ _ Ha1 Ha2) as Hcgu.
  pose proof (fetchOrbePrice_untimed _ _ _ _ _ Hb1 Hb2) as Hou.
  assert (Hnd : untimed_snapshot (newData t1) = untimed_snapshot (newData t2)).
  { destruct (enter_untimed w1 Hidle1) as (t1' & v1' & He1' & Hu1).
    destruct (enter_untimed w2 Hidle2) as (t2' & v2' & He2' & Hu2).
    rewrite He1 in He1'. injection He1' as <- _.
    rewrite He2 in He2'. injection He2' as <- _.
    now rewrite Hu1, Hu2. }
  destruct o1 as [o1|], o2 as [o2|]; try discriminate Hou.
  - injection Hou as Hou. rewrite !untimed_assign. now rewrite Hnd, Hcgu, Hou.
  - rewrite !untimed_assign. now rewrite Hnd, Hcgu.
Qed.

Lemma refresh_depends_on_responses_only_witness :
  untimed_snapshot
    (data (priceCache (exec (updatePriceCache both_up) idle_world)))
  = untimed_snapshot
      (data (priceCache
         (exec (updatePriceCache
                  {| coingecko := coingecko both_up;
                     dexscreener := dexscreener both_up;
                     arrival := DexScreenerFirst |}) sample_world))).
Proof.
  apply refresh_depends_on_responses_only; reflexivity.
Defined.

(* ================================================================== *)
(** ** The routes after a refresh *)
(* ================================================================== *)

Lemma refresh_respond_run w :
  refresh_respond w
  = (Ok {| refresh_success := true;
           refresh_message := "Cache refreshed";
           refresh_data := data (priceCache w);
           refresh_timestamp := clock w (ticks w) |},
     exec Date_now w).
Proof. reflexivity. Qed.

(** X9. [POST /api/prices/refresh] never fails. While a refresh is in
    flight it changes nothing and still answers [success: true],
    [Cache refreshed], with the snapshot that was already there. Otherwise
    it answers with the snapshot it has just published, which is the one
    the cache then holds, and leaves [isUpdating = false]. *)
Theorem forceRefresh_answers :
  forall (net : Network) (w : World),
    (isUpdating (priceCache w) = true ->
       forceRefresh net w
       = (Ok {| refresh_success := true;
                refresh_message := "Cache refreshed";
                refresh_data := data (priceCache w);
                refresh_timestamp := clock w (ticks w) |},
          exec Date_now w))
    /\ (isUpdating (priceCache w) = false ->
        exists response w',
          forceRefresh net w = (Ok response, w')
          /\ refresh_success response = true
          /\ refresh_data response = data (priceCache w')
          /\ refresh_data response
             = data (priceCache (exec (updatePriceCache net) w))
          /\ good_snapshot (refresh_data response)
          /\ isUpdating (priceCache w') = false).
Proof.
  intros net w. split; intros H.
  - unfold forceRefresh, updatePriceCache, bind.
    rewrite (enter_skips w H). reflexivity.
  - destruct (cycle_publishes net w H) as (Hev & d & t & Hc & Hgood).
    unfold forceRefresh, bind.
    destruct (updatePriceCache net w) as [r w1] eqn:Hrun.
    unfold eval in Hev. unfold exec in Hc. rewrite Hrun in Hev, Hc.
    simpl in Hev, Hc. subst r. rewrite refresh_respond_run.
    eexists _, _. split; [reflexivity |].
    unfold exec. rewrite Hrun. simpl. rewrite Hc. simpl.
    split; [reflexivity |]. split; [reflexivity |]. split; [reflexivity |].
    split; [exact Hgood | reflexivity].
Qed.

Lemma forceRefresh_answers_witness :
  forceRefresh both_up busy_world
  = (Ok {| refresh_success := true;
           refresh_message := "Cache refreshed";
           refresh_data := data (priceCache busy_world);
           refresh_timestamp := sample_clock 9 |},
     exec Date_now busy_world).
Proof.
  exact (proj1 (forceRefresh_answers both_up busy_world) eq_refl).
Defined.

(** X10. After a refresh that passed the guard, whatever the providers
    answered, [GET /api/prices/:token] finds every stablecoin under any
    letter case: status 200, the upper-cased symbol, the fixed record, the
    numeric [lastUpdate] and the age counted from it. *)
Theorem getOne_stablecoin_after_refresh :
  forall (net : Network) (w : World) (param : string),
    isUpdating (priceCache w) = false ->
    In (JS.toUpperCase param) STABLECOINS ->
    let w1 := exec (updatePriceCache net) w in
    exists r t,
      getOne param w1
      = (Ok (TokenFound 200 true (JS.toUpperCase param) (Obj.Own r)
               (JS.VNum t)
               (JS.VNum (PrimFloat.sub (clock w1 (ticks w1)) t))),
         exec Date_now w1)
      /\ is_fixed r.
Proof.
  intros net w param Hidle Hin w1.
  destruct (cycle_publishes net w Hidle) as (_ & d & t & Hc & Hgood).
  destruct (good_snapshot_stablecoin d _ Hgood Hin) as (r & Hget & Hfixed).
  exists r, t. split; [|exact Hfixed].
  rewrite (getOne_found param w1 r).
  - subst w1. rewrite Hc. reflexivity.
  - subst w1. rewrite Hc. exact Hget.
Qed.

Lemma getOne_stablecoin_after_refresh_witness :
  exists r t,
    getOne "usdc" (exec (updatePriceCache offline) idle_world)
    = (Ok (TokenFound 200 true (JS.toUpperCase "usdc") (Obj.Own r)
             (JS.VNum t)
             (JS.VNum (PrimFloat.sub
                         (clock (exec (updatePriceCache offline) idle_world)
                            (ticks (exec (updatePriceCache offline)
                                      idle_world))) t))),
       exec Date_now (exec (updatePriceCache offline) idle_world))
    /\ is_fixed r.
Proof.
  apply (getOne_stablecoin_after_refresh offline idle_world "usdc").
  - reflexivity.
  - simpl. tauto.
Defined.

Lemma health_same_cache uptime w : same_cache w (exec (health uptime) w).
Proof. split; reflexivity. Qed.

Lemma refresh_respond_same_cache w : same_cache w (exec refresh_respond w).
Proof. split; reflexivity. Qed.

(** X11. The four answering segments only read: [GET /api/prices],
    [GET /api/prices/:token], [GET /health] and the answer of the refresh
    route never throw and leave the cache and the clock function as they
    were. Taken in the same state they agree: the token counts of
    [/health] and [/api/prices] are the number of [availableTokens] a 404
    lists, their [lastUpdate] is the cache's, and the [data] of
    [/api/prices] and of the refresh answer is the cache's snapshot. *)
Theorem routes_only_read :
  forall (w : World) (param : string) (uptime : JS.number),
    same_cache w (exec getAll w)
    /\ same_cache w (exec (getOne param) w)
    /\ same_cache w (exec (health uptime) w)
    /\ same_cache w (exec refresh_respond w)
    /\ exists all one h fresh,
         eval getAll w = Ok all
         /\ eval (getOne param) w = Ok one
         /\ eval (health uptime) w = Ok h
         /\ eval refresh_respond w = Ok fresh
         /\ prices_data all = data (priceCache w)
         /\ refresh_data fresh = data (priceCache w)
         /\ meta_lastUpdate (prices_meta all) = lastUpdate (priceCache w)
         /\ health_lastUpdate h = lastUpdate (priceCache w)
         /\ meta_tokensCount (prices_meta all) = health_tokensAvailable h
         /\ match one with
            | TokenNotFound status _ _ available =>
                status = 404%Z
                /\ List.length available = health_tokensAvailable h
            | TokenFound status _ _ _ last _ =>
                status = 200%Z /\ last = lastUpdate (priceCache w)
            end.
Proof.
  intros w param uptime.
  split; [apply getAll_same_cache |].
  split; [apply getOne_same_cache |].
  split; [apply health_same_cache |].
  split; [apply refresh_respond_same_cache |].
  unfold eval, getAll, getOne, health, refresh_respond, bind, read_cache.
  destruct (JS.truthy (lastUpdate (priceCache w)));
    destruct (negb (Obj.found _)); simpl;
    eexists _, _, _, _; repeat split; reflexivity.
Qed.

(* ================================================================== *)
(** ** The running process *)
(* ================================================================== *)

(** Shows the state reached as the state a rule of [step] reaches. *)
Ltac reaches s :=
  match goal with
  | |- step _ ?s' => replace s' with s
  end.

(** Every move of the process is a move of the system that forgets the
    adapters and the timer. *)
Lemma proc_step_erase p p' : proc_step p p' -> step (erase p) (erase p').
Proof.
  intros Hstep.
  destruct Hstep as [p Hl | p Ha | p Hl
                     | p before f after response Hf Hnone
                     | p before f after response Hf Hnone
                     | p before f after settled Hf Hset
                     | p Hl | p param Hl | p uptime Hl | p Hl].
  1-3: reaches
         {| world := exec updatePriceCache_enter (world (erase p));
            tasks :=
              match eval updatePriceCache_enter (world (erase p)) with
              | Ok (Some task) => task :: tasks (erase p)
              | _ => tasks (erase p)
              end |};
    [apply step_call |];
    unfold erase, call_update; simpl;
    destruct (eval updatePriceCache_enter (proc_world p)) as [[t|]|e];
    reflexivity.
  - reaches
      {| world := exec (fetchCoinGeckoPrices response) (world (erase p));
         tasks := tasks (erase p) |};
      [apply step_coingecko |].
    unfold erase. simpl. rewrite Hf, !map_app. reflexivity.
  - reaches
      {| world := exec (fetchOrbePrice response) (world (erase p));
         tasks := tasks (erase p) |};
      [apply step_dexscreener |].
    unfold erase. simpl. rewrite Hf, !map_app. reflexivity.
  - reaches
      {| world := exec (updatePriceCache_resume (flight_task f) settled)
                    (world (erase p));
         tasks := map flight_task before ++ map flight_task after |};
      [apply step_settle; unfold erase; simpl;
       rewrite Hf, map_app; reflexivity |].
    unfold erase. simpl. now rewrite map_app.
  - apply (step_getAll (erase p)).
  - apply (step_getOne (erase p)).
  - reaches
      {| world := exec Date_now (world (erase p)); tasks := tasks (erase p) |};
      [apply step_clock | reflexivity].
  - reaches
      {| world := exec Date_now (world (erase p)); tasks := tasks (erase p) |};
      [apply step_clock | reflexivity].
Qed.

Lemma cache_ok_same c c' :
  data c' = data c -> lastUpdate c' = lastUpdate c -> cache_ok c -> cache_ok c'.
Proof. unfold cache_ok. intros -> ->. auto. Qed.

Lemma cache_ok_same_cache w w' :
  same_cache w w' -> cache_ok (priceCache w) -> cache_ok (priceCache w').
Proof. intros [-> _]. auto. Qed.

Lemma call_update_ok startup p :
  Forall flight_ok (flights p) -> Forall flight_ok (call_update startup p).
Proof.
  intros Hf. unfold call_update, eval.
  destruct (isUpdating (priceCache (proc_world p))) eqn:Hup.
  - now rewrite (enter_skips _ Hup).
  - destruct (enter_starts _ Hup)
      as (task & w' & Hrun & _ & _ & _ & Hkeys & Hfixed).
    rewrite Hrun. simpl. constructor; [|exact Hf].
    split; [exact Hkeys |].
    split; [now apply fixed_entries_sourced |].
    split; intros r Hr; discriminate Hr.
Qed.

(** A flight whose adapters returned settles fulfilled, with results that
    are good to merge. *)
Lemma settlement_ok f settled :
  flight_ok f ->
  settlement f = Some settled ->
  exists cg orbe,
    settled = Fulfilled (cg, orbe)
    /\ Forall sourced cg
    /\ match orbe with Some o => Forall sourced o | None => True end.
Proof.
  intros (_ & _ & Hcg & Horbe). unfold settlement.
  destruct (coinGeckoResult f) as [a|], (orbeResult f) as [b|].
  - destruct (Hcg a eq_refl) as (cg & -> & Hs1).
    destruct (Horbe b eq_refl) as (o & -> & Hs2).
    destruct (first_arrival f) as [[|]|]; intros [= <-];
      exists cg, o; repeat split; assumption.
  - destruct (Hcg a eq_refl) as (cg & -> & _). discriminate.
  - destruct (Horbe b eq_refl) as (o & -> & _). discriminate.
  - discriminate.
Qed.

Lemma serve_inv {A : Type} (c : M A) p :
  (forall w, same_cache w (exec c w)) ->
  listening p = true ->
  proc_inv p -> guarded (erase (serve c p)) -> proc_inv (serve c p).
Proof.
  intros Hc Hl (Hcache & Hfl & _ & Hboot & Harmed) Hg.
  destruct (Hc (proc_world p)) as [Hsame _].
  split; [|split; [exact Hfl | split; [exact Hg | split]]]; simpl.
  - now apply (cache_ok_same_cache (proc_world p)).
  - rewrite Hl. discriminate.
  - rewrite Hsame. exact Harmed.
Qed.

Lemma proc_step_inv p p' : proc_inv p -> proc_step p p' -> proc_inv p'.
Proof.
  intros Hinv Hstep.
  assert (Hg' : guarded (erase p')).
  { apply (step_guarded (erase p)); [now apply proc_step_erase | apply Hinv]. }
  destruct Hstep as [p Hl | p Ha | p Hl
                     | p before f after response Hf Hnone
                     | p before f after response Hf Hnone
                     | p before f after settled Hf Hset
                     | p Hl | p param Hl | p uptime Hl | p Hl];
    try (apply serve_inv; try assumption;
         first [ apply getAll_same_cache | apply getOne_same_cache
               | apply health_same_cache | apply refresh_respond_same_cache ]).
  - (* app.listen *)
    destruct Hinv as (Hcache & Hfl & _ & Hboot & _).
    destruct (Hboot Hl) as (Hnil & Hunarmed & Hc0).
    destruct (enter_frame (proc_world p)) as [Hd Hu].
    split; [|split; [|split; [exact Hg' | split]]]; simpl.
    + revert Hcache. now apply cache_ok_same.
    + now apply call_update_ok.
    + discriminate.
    + assert (Hidle : isUpdating (priceCache (proc_world p)) = false)
        by now rewrite Hc0.
      destruct (enter_starts _ Hidle) as (task & w' & Hrun & _).
      unfold eval. rewrite Hrun. simpl. rewrite Hunarmed. discriminate.
  - (* the timer *)
    destruct Hinv as (Hcache & Hfl & _ & Hboot & Harmed).
    destruct (enter_frame (proc_world p)) as [Hd Hu].
    split; [|split; [|split; [exact Hg' | split]]]; simpl.
    + revert Hcache. now apply cache_ok_same.
    + now apply call_update_ok.
    + intros Hl. destruct (Hboot Hl) as (_ & Hunarmed & _). congruence.
    + rewrite Hu. exact Harmed.
  - (* the refresh route *)
    destruct Hinv as (Hcache & Hfl & _ & Hboot & Harmed).
    destruct (enter_frame (proc_world p)) as [Hd Hu].
    split; [|split; [|split; [exact Hg' | split]]]; simpl.
    + revert Hcache. now apply cache_ok_same.
    + now apply call_update_ok.
    + congruence.
    + rewrite Hu. exact Harmed.
  - (* CoinGecko comes back *)
    destruct Hinv as (Hcache & Hfl & _ & Hboot & Harmed).
    destruct (fetchCoinGeckoPrices_same_cache response (proc_world p))
      as [Hsame _].
    rewrite Hf in Hfl. apply Forall_app in Hfl. destruct Hfl as [Hb Hfa].
    inversion Hfa as [|? ? Hfok Ha]; subst.
    split; [|split; [|split; [exact Hg' | split]]]; simpl.
    + rewrite Hsame. exact Hcache.
    + apply Forall_app. split; [exact Hb |]. constructor; [|exact Ha].
      destruct Hfok as (Hk & Hs & _ & Ho).
      split; [exact Hk |]. split; [exact Hs |]. split; [|exact Ho].
      simpl. intros r [= <-].
      destruct (fetchCoinGeckoPrices_total response (proc_world p))
        as (snap & w' & Hrun & _).
      exists snap. assert (He : eval (fetchCoinGeckoPrices response)
                                  (proc_world p) = Ok snap)
        by (unfold eval; now rewrite Hrun).
      split; [exact He |]. now apply (fetchCoinGeckoPrices_sourced _ _ _ He).
    + intros Hl. destruct (Hboot Hl) as (Hnil & _). rewrite Hnil in Hf.
      now destruct before.
    + rewrite Hsame. exact Harmed.
  - (* DexScreener comes back *)
    destruct Hinv as (Hcache & Hfl & _ & Hboot & Harmed).
    destruct (fetchOrbePrice_same_cache response (proc_world p))
      as [Hsame _].
    rewrite Hf in Hfl. apply Forall_app in Hfl. destruct Hfl as [Hb Hfa].
    inversion Hfa as [|? ? Hfok Ha]; subst.
    split; [|split; [|split; [exact Hg' | split]]]; simpl.
    + rewrite Hsame. exact Hcache.
    + apply Forall_app. split; [exact Hb |]. constructor; [|exact Ha].
      destruct Hfok as (Hk & Hs & Hc & _).
      split; [exact Hk |]. split; [exact Hs |]. split; [exact Hc |].
      simpl. intros r [= <-].
      destruct (fetchOrbePrice_total response (proc_world p))
        as (res & w' & Hrun & _).
      exists res. assert (He : eval (fetchOrbePrice response)
                                 (proc_world p) = Ok res)
        by (unfold eval; now rewrite Hrun).
      split; [exact He |]. destruct res as [o|]; [|exact I].
      now apply (fetchOrbePrice_sourced _ _ _ He).
    + intros Hl. destruct (Hboot Hl) as (Hnil & _). rewrite Hnil in Hf.
      now destruct before.
    + rewrite Hsame. exact Harmed.
  - (* the await returns *)
    destruct Hinv as (Hcache & Hfl & _ & Hboot & Harmed).
    rewrite Hf in Hfl. apply Forall_app in Hfl. destruct Hfl as [Hb Hfa].
    inversion Hfa as [|? ? Hfok Ha]; subst.
    destruct (settlement_ok f settled Hfok Hset)
      as (cg & orbe & -> & Hcg & Horbe).
    split; [|split; [|split; [exact Hg' | split]]];
      cbn [proc_world flights listening interval_armed];
      unfold exec; rewrite ?resume_fulfilled; simpl.
    + right. split; [|eexists; reflexivity].
      destruct Hfok as (Hk & Hs & _). now apply merged_good.
    + apply Forall_app. now split.
    + intros Hl. destruct (Hboot Hl) as (Hnil & _). rewrite Hnil in Hf.
      now destruct before.
    + intros _. eexists. reflexivity.
Qed.

Lemma running_inv p : running p -> proc_inv p.
Proof.
  induction 1 as [clk | p p' _ IH Hstep].
  - split; [left; split; reflexivity |].
    split; [constructor |]. split; [reflexivity |].
    split; [intros _; repeat split | discriminate].
  - now apply (proc_step_inv p p').
Qed.

Lemma sample_process_running : running sample_process.
Proof.
  pose (t1 := match eval updatePriceCache_enter sample_world with
              | Ok (Some t) => t
              | _ => {| newData := []; startTime := 0%float |}
              end).
  pose (p0 := launch sample_clock).
  pose proof (running_step _ _ (running_launch sample_clock)
                (ps_listen p0 eq_refl)) as R1.
  match type of R1 with running ?q => set (p1 := q) in R1 end.
  pose (f1 := new_flight true t1).
  pose proof (running_step _ _ R1
                (ps_coingecko p1 [] f1 [] (Json sample_quotes)
                   eq_refl eq_refl)) as R2.
  match type of R2 with running ?q => set (p2 := q) in R2 end.
  pose (f2 := {| from_startup := true; flight_task := t1;
                 first_arrival := Some CoinGeckoFirst;
                 coinGeckoResult :=
                   Some (eval (fetchCoinGeckoPrices (Json sample_quotes))
                           (proc_world p1));
                 orbeResult := None |}).
  pose proof (running_step _ _ R2
                (ps_dexscreener p2 [] f2 [] (Json (orbe_body "0.0012"))
                   eq_refl eq_refl)) as R3.
  match type of R3 with running ?q => set (p3 := q) in R3 end.
  pose (f3 := {| from_startup := true; flight_task := t1;
                 first_arrival := Some CoinGeckoFirst;
                 coinGeckoResult := coinGeckoResult f2;
                 orbeResult :=
                   Some (eval (fetchOrbePrice (Json (orbe_body "0.0012")))
                           (proc_world p2)) |}).
  exact (running_step _ _ R3
           (ps_resume p3 [] f3 []
              (Promise_all CoinGeckoFirst
                 (eval (fetchCoinGeckoPrices (Json sample_quotes))
                    (proc_world p1))
                 (eval (fetchOrbePrice (Json (orbe_body "0.0012")))
                    (proc_world p2)))
              eq_refl eq_refl)).
Qed.

(** X12. In every state the server can reach (the start-up call, timer
    ticks, refresh requests and reads in any order, the two network
    answers of a refresh arriving in either order and with any content)
    the cache is either still empty with [lastUpdate = null], or it holds
    a snapshot with no key twice, the stablecoins first and fixed, every
    other entry a positive [coingecko] price under BTC, ETH, BNB or SOL
    or a [dexscreener] record under ORBE, together with a numeric
    [lastUpdate]. At most one refresh is in flight, and [isUpdating] is
    [true] exactly then. *)
Theorem server_cache_always_consistent :
  forall p : Process,
    running p ->
    let c := priceCache (proc_world p) in
    ((data c = [] /\ lastUpdate c = JS.VNull)
     \/ (good_snapshot (data c) /\ exists t, lastUpdate c = JS.VNum t))
    /\ (List.length (flights p) <= 1)%nat
    /\ (isUpdating c = true <-> flights p <> []).
Proof.
  intros p Hrun c. destruct (running_inv p Hrun) as (Hcache & _ & Hg & _).
  split; [exact Hcache |].
  unfold guarded, erase in Hg. simpl in Hg. subst c.
  destruct (flights p) as [|f0 [|f1 rest]]; simpl in *.
  - rewrite Hg. split; [lia |].
    split; [discriminate | intros H; now contradiction H].
  - rewrite Hg. split; [lia |]. split; [discriminate | reflexivity].
  - contradiction.
Qed.

Lemma server_cache_always_consistent_witness :
  (List.length (flights sample_process) <= 1)%nat.
Proof.
  exact (proj1 (proj2 (server_cache_always_consistent sample_process
                         sample_process_running))).
Defined.

(** X13. [startAutoUpdate] arms the 30 s timer only after its first
    [updatePriceCache] has returned: whenever the timer is armed the
    server is listening, [lastUpdate] is a number and every stablecoin is
    already served with its fixed record. *)
Theorem timer_armed_after_first_snapshot :
  forall p : Process,
    running p ->
    interval_armed p = true ->
    listening p = true
    /\ (exists t, lastUpdate (priceCache (proc_world p)) = JS.VNum t)
    /\ good_snapshot (data (priceCache (proc_world p)))
    /\ forall symbol,
         In symbol STABLECOINS ->
         exists r,
           Obj.get symbol (data (priceCache (proc_world p))) = Some r
           /\ is_fixed r.
Proof.
  intros p Hrun Harmed.
  destruct (running_inv p Hrun) as (Hcache & _ & _ & Hboot & Hstamp).
  destruct (Hstamp Harmed) as [t Ht].
  assert (Hgood : good_snapshot (data (priceCache (proc_world p)))).
  { destruct Hcache as [[_ Hnull] | [Hgood _]]; [congruence | exact Hgood]. }
  split; [|split; [now exists t | split; [exact Hgood |]]].
  - destruct (listening p); [reflexivity |].
    destruct (Hboot eq_refl) as (_ & Hunarmed & _). congruence.
  - intros symbol Hin. now apply good_snapshot_stablecoin.
Qed.

Lemma timer_armed_after_first_snapshot_witness :
  exists t, lastUpdate (priceCache (proc_world sample_process)) = JS.VNum t.
Proof.
  exact (proj1 (proj2 (timer_armed_after_first_snapshot sample_process
                         sample_process_running eq_refl))).
Defined.

(** X14. Once a snapshot has been published, the server never goes back
    to an empty cache: no move of the process (a skipped, failed or
    successful refresh, a network answer, a request) turns a numeric
    [lastUpdate] into [null] or removes a stablecoin from the snapshot. *)
Theorem snapshot_never_cleared :
  forall p p' : Process,
    running p ->
    proc_step p p' ->
    (exists t, lastUpdate (priceCache (proc_world p)) = JS.VNum t) ->
    (exists t', lastUpdate (priceCache (proc_world p')) = JS.VNum t')
    /\ incl STABLECOINS (Obj.keys (data (priceCache (proc_world p')))).
Proof.
  intros p p' Hrun Hstep [t Ht].
  assert (Hrun' : running p') by now apply (running_step p p').
  destruct (running_inv p' Hrun') as ([[_ Hnull] | [Hgood Hnum]] & _).
  - (* the cache of [p'] cannot be the empty one *)
    exfalso.
    destruct Hstep as [p Hl | p Ha | p Hl
                       | p before f after response Hf Hnone
                       | p before f after response Hf Hnone
                       | p before f after settled Hf Hset
                       | p Hl | p param Hl | p uptime Hl | p Hl];
      simpl in Hnull.
    1-3: destruct (enter_frame (proc_world p)) as [_ Hu]; congruence.
    + destruct (fetchCoinGeckoPrices_same_cache response (proc_world p))
        as [Hs _]. congruence.
    + destruct (fetchOrbePrice_same_cache response (proc_world p))
        as [Hs _]. congruence.
    + destruct settled as [[cg orbe] | e]; unfold exec in Hnull.
      * rewrite resume_fulfilled in Hnull. discriminate.
      * rewrite resume_rejected in Hnull. simpl in Hnull. congruence.
    + destruct (getAll_same_cache (proc_world p)) as [Hs _]. congruence.
    + destruct (getOne_same_cache param (proc_world p)) as [Hs _]. congruence.
    + congruence.
    + congruence.
  - split; [exact Hnum |].
    destruct Hgood as (_ & _ & rest & ->). intros k Hk.
    apply in_or_app. now left.
Qed.

Lemma snapshot_never_cleared_witness :
  exists t',
    lastUpdate (priceCache (proc_world (serve getAll sample_process)))
    = JS.VNum t'.
Proof.
  refine (proj1 (snapshot_never_cleared sample_process
                   (serve getAll sample_process)
                   sample_process_running
                   (ps_getAll sample_process eq_refl) _)).
  eexists. reflexivity.
Defined.



(** X16. When the [Promise.all] of a refresh rejects, the error is
    swallowed: the call returns normally, the snapshot and [lastUpdate] of
    the cache stay what they were at that moment, nothing is read from
    the clock, and only [isUpdating] is reset. *)
Theorem rejected_refresh_keeps_snapshot :
  forall (task : Task) (e : error) (w : World),
    let w' := exec (updatePriceCache_resume task (Rejected e)) w in
    eval (updatePriceCache_resume task (Rejected e)) w = Ok tt
    /\ data (priceCache w') = data (priceCache w)
    /\ lastUpdate (priceCache w') = lastUpdate (priceCache w)
    /\ isUpdating (priceCache w') = false
    /\ ticks w' = ticks w.
Proof.
  intros task e w w'. subst w'. unfold eval, exec.
  rewrite resume_rejected. repeat split.
Qed.
